(** * ChessWiz: the practice session of the opening trainer

    The repository ships the trainer component twice.  Both files define a
    React component [ChessWiz] with the same handlers:

    - [src/unnamed/part_002]: the drop listener reads the moves and the index
      through refs, keeps [lastFenIndex] next to [lastFen], guards the end of
      the variation and checks the result of [game.move] in [handleNextMove];
    - [src/unnamed/part_003]: no refs, no [lastFenIndex], no such guards;
      its drop listener is attached again only when the opening id, the
      variation name or the index change, and keeps the move list of the
      render it was attached in.

    They are embedded below as [Part002] and [Part003].  A handler is a
    function from the session (the [useState] cells together with the
    chess.js object held in [game]) to the session after the handler has
    run and React has re-rendered.  Inside a handler the state cells are
    read from the closure, so every read below is a read of the incoming
    session [s], while the calls on [game] take effect at once and are
    threaded in source order.  An [async] handler is split at its [await]:
    the part before it, and the part that runs once the fetch has settled. *)

From Stdlib Require Import ZArith List String Ascii Bool Lia.
Import ListNotations.
Open Scope string_scope.
Open Scope Z_scope.

Set Implicit Arguments.

(** ** The chess.js object

    [new Chess()] is consumed through six methods.  The handlers test the
    value returned by [game.move] for falsiness ([if (!moveResult)]), so a
    rejected move is [None] here; an accepted one gives the SAN of the move
    and the game after it.  [game.reset()] reloads the default position and
    drops history and headers: the state it leaves does not depend on the
    state before, hence the constant [initial]. *)

Class Chess : Type := {
  Game : Type;
  initial : Game;                                           (* new Chess(), game.reset() *)
  move : Game -> string -> string -> option (string * Game); (* game.move({from, to, promotion: "q"}) *)
  moveSAN : Game -> string -> option (string * Game);       (* game.move(san) *)
  undo : Game -> Game;                                      (* game.undo() *)
  fen : Game -> string;                                     (* game.fen() *)
  load : Game -> string -> Game                             (* game.load(fen) *)
}.

(** What the [setAction] callback of a chessboard-element [drop] event was
    told: [Snapback] for [setAction("snapback")], [Drop] when the handler
    never calls it and the piece stays where it was dropped. *)
Inductive Action : Type := Drop | Snapback.

(** What the awaited [fetch] of the move list settles to. *)
Inductive FetchResult : Type :=
| FetchThrows                       (* fetch or resp.json() rejects: the catch block *)
| HttpError                         (* !resp.ok *)
| NotArray                          (* !Array.isArray(movesData) *)
| MovesArray (movesData : list string).


(** What the awaited [fetch] of [api/practice/random] settles to. *)
Inductive RandomResult : Type :=
| RandomThrows
| RandomHttpError
| RandomPick (openingId variationName : string).

(** ** Strings *)

(** [String.prototype.toLowerCase] on the ASCII letters SAN is made of. *)
Definition lower_ascii (c : ascii) : ascii :=
  let n := nat_of_ascii c in
  if andb (Nat.leb 65 n) (Nat.leb n 90) then ascii_of_nat (n + 32) else c.

Fixpoint toLowerCase (s : string) : string :=
  match s with
  | EmptyString => EmptyString
  | String c r => String (lower_ascii c) (toLowerCase r)
  end.

(** [a === b] where [b] is a string or [undefined]. *)
Definition strict_eq (a : string) (b : option string) : bool :=
  match b with
  | Some b' => String.eqb a b'
  | None => false
  end.

(** [arr[i]] for a number [i]: [undefined] outside the array. *)
Definition at_index (arr : list string) (i : Z) : option string :=
  if i <? 0 then None else nth_error arr (Z.to_nat i).

(** [arr.length] *)
Definition len (arr : list string) : Z := Z.of_nat (List.length arr).

Notation "s |> f" := (f s) (at level 68, left associativity, only parsing).

(** ** The sidebar *)

(** One entry of the list served by [api/openings], as the sidebar reads
    it: [opening.id], [opening.openingName], [opening.ecoCode] and the
    names in [opening.variations]. *)
Record OpeningSummary : Type := mkOpeningSummary {
  id : string;
  openingName : string;
  ecoCode : string;
  variations : list string
}.

(** The cells of the sidebar: [openings] and [loading]. *)
Record Sidebar : Type := mkSidebar {
  openings : list OpeningSummary;
  loading : bool
}.

(** [useState([])] and [useState(false)]. *)
Definition sidebar_mount : Sidebar := mkSidebar [] false.

(** What the awaited [fetch] of [api/openings] settles to. *)
Inductive ListResult : Type :=
| ListThrows
| ListHttpError
| ListData (data : list OpeningSummary).

(** What the awaited [fetch] of [api/openings/<id>] settles to; the
    detail object is kept opaque. *)
Inductive DetailResult : Type :=
| DetailThrows
| DetailHttpError
| DetailData (data : string).

(** ** [src/unnamed/part_002] *)

Module Part002.
Section Handlers.
Context {chess : Chess}.

(** The [useState] cells the handlers touch, and the chess.js object. *)
Record Session : Type := mkSession {
  game : Game;
  currentOpeningId : option string;
  currentVariationName : option string;
  currentMoves : list string;
  currentIndex : Z;
  feedback : string;
  wrongMove : bool;
  boardPosition : string;
  lastFen : string;
  lastFenIndex : Z;
  selectedOpening : option string      (* the fetched detail object, opaque *)
}.

(** [useState] start values. *)
Definition mount : Session :=
  {| game := initial; currentOpeningId := None; currentVariationName := None;
     currentMoves := []; currentIndex := 0; feedback := ""; wrongMove := false;
     boardPosition := "start"; lastFen := "start"; lastFenIndex := 0;
     selectedOpening := None |}.

Definition setGame (v : Game) (s : Session) : Session :=
  mkSession v (currentOpeningId s) (currentVariationName s) (currentMoves s)
    (currentIndex s) (feedback s) (wrongMove s) (boardPosition s) (lastFen s)
    (lastFenIndex s) (selectedOpening s).
Definition setCurrentOpeningId (v : option string) (s : Session) : Session :=
  mkSession (game s) v (currentVariationName s) (currentMoves s)
    (currentIndex s) (feedback s) (wrongMove s) (boardPosition s) (lastFen s)
    (lastFenIndex s) (selectedOpening s).
Definition setCurrentVariationName (v : option string) (s : Session) : Session :=
  mkSession (game s) (currentOpeningId s) v (currentMoves s)
    (currentIndex s) (feedback s) (wrongMove s) (boardPosition s) (lastFen s)
    (lastFenIndex s) (selectedOpening s).
Definition setCurrentMoves (v : list string) (s : Session) : Session :=
  mkSession (game s) (currentOpeningId s) (currentVariationName s) v
    (currentIndex s) (feedback s) (wrongMove s) (boardPosition s) (lastFen s)
    (lastFenIndex s) (selectedOpening s).
Definition setCurrentIndex (v : Z) (s : Session) : Session :=
  mkSession (game s) (currentOpeningId s) (currentVariationName s) (currentMoves s)
    v (feedback s) (wrongMove s) (boardPosition s) (lastFen s)
    (lastFenIndex s) (selectedOpening s).
Definition setFeedback (v : string) (s : Session) : Session :=
  mkSession (game s) (currentOpeningId s) (currentVariationName s) (currentMoves s)
    (currentIndex s) v (wrongMove s) (boardPosition s) (lastFen s)
    (lastFenIndex s) (selectedOpening s).
Definition setWrongMove (v : bool) (s : Session) : Session :=
  mkSession (game s) (currentOpeningId s) (currentVariationName s) (currentMoves s)
    (currentIndex s) (feedback s) v (boardPosition s) (lastFen s)
    (lastFenIndex s) (selectedOpening s).
Definition setBoardPosition (v : string) (s : Session) : Session :=
  mkSession (game s) (currentOpeningId s) (currentVariationName s) (currentMoves s)
    (currentIndex s) (feedback s) (wrongMove s) v (lastFen s)
    (lastFenIndex s) (selectedOpening s).
Definition setLastFen (v : string) (s : Session) : Session :=
  mkSession (game s) (currentOpeningId s) (currentVariationName s) (currentMoves s)
    (currentIndex s) (feedback s) (wrongMove s) (boardPosition s) v
    (lastFenIndex s) (selectedOpening s).
Definition setLastFenIndex (v : Z) (s : Session) : Session :=
  mkSession (game s) (currentOpeningId s) (currentVariationName s) (currentMoves s)
    (currentIndex s) (feedback s) (wrongMove s) (boardPosition s) (lastFen s)
    v (selectedOpening s).
Definition setSelectedOpening (v : option string) (s : Session) : Session :=
  mkSession (game s) (currentOpeningId s) (currentVariationName s) (currentMoves s)
    (currentIndex s) (feedback s) (wrongMove s) (boardPosition s) (lastFen s)
    (lastFenIndex s) v.

(** [handlePieceDrop], lines 70-130.  The refs [currentMovesRef] and
    [currentIndexRef] are rewritten by an effect after every render, so
    when a drop event arrives they hold the current cells. *)
Definition handlePieceDrop (source target : string) (s : Session)
  : Action * Session :=
  match currentMoves s with
  | [] =>
      (* If no moves => freeplay *)
      match move (game s) source target with
      | None => (Snapback, s |> setFeedback "Illegal move (freeplay).")
      | Some (_, g) =>
          (Drop, s |> setGame g |> setBoardPosition (fen g)
                   |> setFeedback "Freeplay move recorded.")
      end
  | _ :: _ =>
      if len (currentMoves s) <=? currentIndex s then
        (* If all moves in the variation are already done *)
        (Snapback, s |> setFeedback "No more moves in this variation.")
      else
        let beforeFen := fen (game s) in
        match move (game s) source target with
        | None => (Snapback, s |> setFeedback "Illegal move!")
        | Some (san, g) =>
            let userMove := toLowerCase san in
            let correctNext :=
              option_map toLowerCase (at_index (currentMoves s) (currentIndex s)) in
            if strict_eq userMove correctNext then
              (Drop, s |> setGame g
                       |> setFeedback ("Good job! Move: " ++ userMove)
                       |> setWrongMove false
                       |> setBoardPosition (fen g)
                       |> setLastFen (fen g)
                       |> setLastFenIndex (currentIndex s + 1)
                       |> setCurrentIndex (currentIndex s + 1))
            else
              (Snapback, s |> setGame (load g beforeFen)
                           |> setBoardPosition beforeFen
                           |> setFeedback "Wrong move!"
                           |> setWrongMove true)
        end
  end.

(** [startVariationPractice], lines 178-193: up to the [await]. *)
Definition startVariationPractice (openingId variationName : string)
  (s : Session) : Session :=
  s |> setFeedback ("Loading moves for " ++ variationName ++ "...")
    |> setCurrentOpeningId (Some openingId)
    |> setCurrentVariationName (Some variationName)
    |> setCurrentMoves []
    |> setCurrentIndex 0
    |> setWrongMove false
    |> setLastFen "start"
    |> setLastFenIndex 0
    |> setGame initial
    |> setBoardPosition "start".

(** [startVariationPractice], lines 194-210: once the fetch has settled.
    Nothing here reads [openingId] or [variationName]. *)
Definition startVariationPractice_settled (r : FetchResult) (s : Session)
  : Session :=
  match r with
  | HttpError => s |> setFeedback "Error loading variation moves."
  | NotArray => s |> setFeedback "Invalid variation data."
  | MovesArray movesData =>
      s |> setCurrentMoves movesData
        |> setFeedback "Variation loaded. Make the first move!"
  | FetchThrows => s |> setFeedback "Error fetching variation data."
  end.

(** [handlePrevMove], lines 216-229. *)
Definition handlePrevMove (s : Session) : Session :=
  match currentMoves s with
  | [] => s |> setFeedback "No moves to step back."
  | _ :: _ =>
      if currentIndex s <=? 0 then s |> setFeedback "Already at the first move!"
      else
        let g := undo (game s) in
        s |> setGame g |> setBoardPosition (fen g)
          |> setCurrentIndex (currentIndex s - 1)
          |> setFeedback "Stepped back one move."
  end.

(** [handleNextMove], lines 231-249.  [currentIndex < currentMoves.length]
    past both guards; a negative index would read [undefined], which
    [game.move] rejects. *)
Definition handleNextMove (s : Session) : Session :=
  match currentMoves s with
  | [] => s |> setFeedback "No moves to step forward."
  | _ :: _ =>
      if len (currentMoves s) <=? currentIndex s then
        s |> setFeedback "Already at the last move."
      else
        match at_index (currentMoves s) (currentIndex s) with
        | None => s |> setFeedback "Invalid move sequence? Could not apply next move."
        | Some nextMoveSAN =>
            match moveSAN (game s) nextMoveSAN with
            | None =>
                s |> setFeedback "Invalid move sequence? Could not apply next move."
            | Some (_, g) =>
                s |> setGame g |> setBoardPosition (fen g)
                  |> setCurrentIndex (currentIndex s + 1)
                  |> setFeedback ("Forward move: " ++ nextMoveSAN)
            end
        end
  end.

(** [handleResetToLastPosition], lines 254-270. *)
Definition handleResetToLastPosition (s : Session) : Session :=
  if lastFenIndex s =? 0 then
    s |> setGame initial |> setBoardPosition "start" |> setCurrentIndex 0
      |> setWrongMove false
      |> setFeedback "No correct move to reset to. Board reset to start."
  else
    s |> setGame (load (game s) (lastFen s)) |> setBoardPosition (lastFen s)
      |> setCurrentIndex (lastFenIndex s) |> setWrongMove false
      |> setFeedback "Reset to last correct move.".

(** [handleResetBoard], lines 275-291. *)
Definition handleResetBoard (s : Session) : Session :=
  if 0 <? len (currentMoves s) then
    s |> setGame initial |> setBoardPosition "start" |> setLastFen "start"
      |> setLastFenIndex 0 |> setWrongMove false |> setCurrentIndex 0
      |> setFeedback "Board reset for this variation. Move #1."
  else
    s |> setGame initial |> setBoardPosition "start"
      |> setFeedback "Board reset in free-play mode.".

(** [enterFreeplayMode], lines 296-310. *)
Definition enterFreeplayMode (s : Session) : Session :=
  s |> setFeedback "Switched to freeplay mode."
    |> setCurrentOpeningId None
    |> setCurrentVariationName None
    |> setSelectedOpening None
    |> setCurrentMoves []
    |> setCurrentIndex 0
    |> setWrongMove false
    |> setGame initial
    |> setBoardPosition "start"
    |> setLastFen "start"
    |> setLastFenIndex 0.

(** [handleRandomVariation], lines 315-330: up to the [await]. *)
Definition handleRandomVariation (s : Session) : Session :=
  s |> setFeedback "Loading random variation...".

(** [handleRandomVariation] once its fetch has settled; on success it runs
    [startVariationPractice] up to that function's own [await]. *)
Definition handleRandomVariation_settled (r : RandomResult) (s : Session)
  : Session :=
  match r with
  | RandomHttpError => s |> setFeedback "No openings found or error."
  | RandomPick openingId variationName =>
      s |> setFeedback ("Random Variation: " ++ variationName)
        |> startVariationPractice openingId variationName
  | RandomThrows => s |> setFeedback "Error fetching random variation."
  end.

(** *** The component over time

    One event runs to completion before the next is taken (a single
    event loop).  A move-list fetch that has been issued and has not
    settled yet is remembered with the arguments of the call that issued
    it; fetches settle in any order.  The board and the buttons under it
    are rendered while no opening detail is selected; no event below
    selects one. *)
Record World : Type := mkWorld {
  session : Session;
  movesFetches : list (string * string);   (* in flight: api/openings/<id>/<variation> *)
  randomFetches : nat                      (* in flight: api/practice/random *)
}.

Inductive Event : Type :=
| DropPiece (source target : string)                    (* the board's drop event *)
| ClickVariation (openingId variationName : string)     (* startVariationPractice(opening.id, variation) *)
| MovesSettled (k : nat) (r : FetchResult)              (* the k-th move-list fetch in flight settles *)
| ClickPrev
| ClickNext
| ClickResetToLast
| ClickResetBoard
| ClickFreeplay
| ClickRandom
| RandomSettled (r : RandomResult).                     (* a random-variation fetch settles *)

Definition remove_nth {A : Type} (k : nat) (l : list A) : list A :=
  firstn k l ++ skipn (S k) l.

(** [None]: the event cannot happen in this world (nothing to settle). *)
Definition step (e : Event) (w : World) : option World :=
  let s := session w in
  let same s' := Some (mkWorld s' (movesFetches w) (randomFetches w)) in
  match e with
  | DropPiece source target => same (snd (handlePieceDrop source target s))
  | ClickVariation openingId variationName =>
      Some (mkWorld (startVariationPractice openingId variationName s)
              (movesFetches w ++ [(openingId, variationName)]) (randomFetches w))
  | MovesSettled k r =>
      if Nat.ltb k (List.length (movesFetches w)) then
        Some (mkWorld (startVariationPractice_settled r s)
                (remove_nth k (movesFetches w)) (randomFetches w))
      else None
  | ClickPrev => same (handlePrevMove s)
  | ClickNext => same (handleNextMove s)
  | ClickResetToLast => same (handleResetToLastPosition s)
  | ClickResetBoard => same (handleResetBoard s)
  | ClickFreeplay => same (enterFreeplayMode s)
  | ClickRandom =>
      Some (mkWorld (handleRandomVariation s) (movesFetches w) (S (randomFetches w)))
  | RandomSettled r =>
      match randomFetches w with
      | O => None
      | S n =>
          Some (mkWorld (handleRandomVariation_settled r s)
                  (match r with
                   | RandomPick openingId variationName =>
                       movesFetches w ++ [(openingId, variationName)]
                   | _ => movesFetches w
                   end) n)
      end
  end.

Fixpoint run (es : list Event) (w : World) : option World :=
  match es with
  | [] => Some w
  | e :: es' =>
      match step e w with
      | Some w' => run es' w'
      | None => None
      end
  end.

(** The component right after mounting. *)
Definition boot : World := mkWorld mount [] 0.

(** [e] issues a move-list fetch. *)
Definition issues_fetch (e : Event) : bool :=
  match e with
  | ClickVariation _ _ => true
  | RandomSettled (RandomPick _ _) => true
  | _ => false
  end.

(** No move-list fetch is issued along [es] while another one is in
    flight. *)
Fixpoint one_at_a_time (es : list Event) (w : World) : bool :=
  match es with
  | [] => true
  | e :: es' =>
      negb (issues_fetch e && negb (Nat.eqb (List.length (movesFetches w)) 0))
      && match step e w with
         | Some w' => one_at_a_time es' w'
         | None => true
         end
  end.

(** The title of the board card, lines 559-561: practice is shown when
    [currentVariationName] is truthy. *)
Inductive Mode : Type := FreePlay | Practicing.

Definition mode (s : Session) : Mode :=
  match currentVariationName s with
  | None => FreePlay
  | Some EmptyString => FreePlay
  | Some _ => Practicing
  end.

(** *** The endpoint and the sidebar *)

(** [base.replace(/\/+$/, "")]: the slashes at the end are dropped. *)
Fixpoint stripTrailingSlashes (s : string) : string :=
  match s with
  | EmptyString => EmptyString
  | String c r =>
      match stripTrailingSlashes r with
      | EmptyString =>
          if Ascii.eqb c "/"%char then EmptyString else String c EmptyString
      | String c' r' => String c (String c' r')
      end
  end.

(** [path.replace(/^\/+/, "")]: the slashes at the start are dropped. *)
Fixpoint stripLeadingSlashes (s : string) : string :=
  match s with
  | EmptyString => EmptyString
  | String c r => if Ascii.eqb c "/"%char then stripLeadingSlashes r else s
  end.

(** [API_BASE_URL], lines 24-25: [import.meta.env.VITE_API_URL] when it is
    truthy (set and not empty), the deployed server otherwise. *)
Definition API_BASE_URL (VITE_API_URL : option string) : string :=
  stripTrailingSlashes
    match VITE_API_URL with
    | Some (String c r) => String c r
    | _ => "https://chesswiz.onrender.com"
    end.

(** [buildUrl], line 65. *)
Definition buildUrl (VITE_API_URL : option string) (path : string) : string :=
  API_BASE_URL VITE_API_URL ++ "/" ++ stripLeadingSlashes path.

(** [loadOpenings], lines 135-137: up to the [await]. *)
Definition loadOpenings (c : Session * Sidebar) : Session * Sidebar :=
  (fst c, mkSidebar (openings (snd c)) true).

(** [loadOpenings], lines 138-151: once the fetch has settled; the
    [finally] block runs on every path. *)
Definition loadOpenings_settled (r : ListResult) (c : Session * Sidebar)
  : Session * Sidebar :=
  match r with
  | ListHttpError =>
      (fst c |> setFeedback "Error loading openings.",
       mkSidebar (openings (snd c)) false)
  | ListData data =>
      (fst c |> setFeedback "Openings loaded.", mkSidebar data false)
  | ListThrows =>
      (fst c |> setFeedback "Error fetching openings data.",
       mkSidebar (openings (snd c)) false)
  end.

(** [handleSelectOpening], lines 157-158: up to the [await]. *)
Definition handleSelectOpening (s : Session) : Session :=
  s |> setFeedback "Loading opening details...".

(** [handleSelectOpening], lines 159-172: once the fetch has settled. *)
Definition handleSelectOpening_settled (r : DetailResult) (s : Session)
  : Session :=
  match r with
  | DetailHttpError => s |> setFeedback "Error loading the full opening details."
  | DetailData data => s |> setSelectedOpening (Some data) |> setFeedback ""
  | DetailThrows => s |> setFeedback "Error fetching the full opening details."
  end.

(** The main area, line 452: the detail panel replaces the card with the
    board while an opening is selected. *)
Definition boardShown (s : Session) : bool :=
  match selectedOpening s with
  | Some _ => false
  | None => true
  end.

(** The Reset to Last button, line 594. *)
Definition resetToLastShown (s : Session) : bool :=
  (0 <? len (currentMoves s)) && wrongMove s && (0 <? lastFenIndex s).

End Handlers.
End Part002.

(** ** [src/unnamed/part_003] *)

Module Part003.
Section Handlers.
Context {chess : Chess}.

(** The [useState] cells the handlers touch, and the chess.js object.
    This file has no [lastFenIndex]. *)
Record Session : Type := mkSession {
  game : Game;
  currentOpeningId : option string;
  currentVariationName : option string;
  currentMoves : list string;
  currentIndex : Z;
  feedback : string;
  wrongMove : bool;
  lastFen : string;
  boardPosition : string;
  selectedOpening : option string
}.

Definition mount : Session :=
  {| game := initial; currentOpeningId := None; currentVariationName := None;
     currentMoves := []; currentIndex := 0; feedback := ""; wrongMove := false;
     lastFen := "start"; boardPosition := "start"; selectedOpening := None |}.

Definition setGame (v : Game) (s : Session) : Session :=
  mkSession v (currentOpeningId s) (currentVariationName s) (currentMoves s)
    (currentIndex s) (feedback s) (wrongMove s) (lastFen s) (boardPosition s)
    (selectedOpening s).
Definition setCurrentOpeningId (v : option string) (s : Session) : Session :=
  mkSession (game s) v (currentVariationName s) (currentMoves s)
    (currentIndex s) (feedback s) (wrongMove s) (lastFen s) (boardPosition s)
    (selectedOpening s).
Definition setCurrentVariationName (v : option string) (s : Session) : Session :=
  mkSession (game s) (currentOpeningId s) v (currentMoves s)
    (currentIndex s) (feedback s) (wrongMove s) (lastFen s) (boardPosition s)
    (selectedOpening s).
Definition setCurrentMoves (v : list string) (s : Session) : Session :=
  mkSession (game s) (currentOpeningId s) (currentVariationName s) v
    (currentIndex s) (feedback s) (wrongMove s) (lastFen s) (boardPosition s)
    (selectedOpening s).
Definition setCurrentIndex (v : Z) (s : Session) : Session :=
  mkSession (game s) (currentOpeningId s) (currentVariationName s) (currentMoves s)
    v (feedback s) (wrongMove s) (lastFen s) (boardPosition s)
    (selectedOpening s).
Definition setFeedback (v : string) (s : Session) : Session :=
  mkSession (game s) (currentOpeningId s) (currentVariationName s) (currentMoves s)
    (currentIndex s) v (wrongMove s) (lastFen s) (boardPosition s)
    (selectedOpening s).
Definition setWrongMove (v : bool) (s : Session) : Session :=
  mkSession (game s) (currentOpeningId s) (currentVariationName s) (currentMoves s)
    (currentIndex s) (feedback s) v (lastFen s) (boardPosition s)
    (selectedOpening s).
Definition setLastFen (v : string) (s : Session) : Session :=
  mkSession (game s) (currentOpeningId s) (currentVariationName s) (currentMoves s)
    (currentIndex s) (feedback s) (wrongMove s) v (boardPosition s)
    (selectedOpening s).
Definition setBoardPosition (v : string) (s : Session) : Session :=
  mkSession (game s) (currentOpeningId s) (currentVariationName s) (currentMoves s)
    (currentIndex s) (feedback s) (wrongMove s) (lastFen s) v
    (selectedOpening s).
Definition setSelectedOpening (v : option string) (s : Session) : Session :=
  mkSession (game s) (currentOpeningId s) (currentVariationName s) (currentMoves s)
    (currentIndex s) (feedback s) (wrongMove s) (lastFen s) (boardPosition s)
    v.

(** [x && ...] for a string or [undefined]: the empty string is falsy. *)
Definition truthy (x : option string) : bool :=
  match x with
  | Some EmptyString => false
  | Some _ => true
  | None => false
  end.

(** [startVariationPractice], lines 103-113: up to the [await]. *)
Definition startVariationPractice (openingId variationName : string)
  (s : Session) : Session :=
  s |> setCurrentOpeningId (Some openingId)
    |> setCurrentVariationName (Some variationName)
    |> setCurrentIndex 0
    |> setCurrentMoves []
    |> setFeedback ""
    |> setWrongMove false
    |> setGame initial
    |> setBoardPosition "start"
    |> setLastFen "start".

(** [startVariationPractice], lines 115-131: once the fetch has settled. *)
Definition startVariationPractice_settled (r : FetchResult) (s : Session)
  : Session :=
  match r with
  | HttpError => s |> setFeedback "Error loading variation moves."
  | NotArray => s |> setFeedback "Invalid variation data."
  | MovesArray movesData =>
      s |> setCurrentMoves movesData
        |> setFeedback "Variation loaded. Make the first move!"
  | FetchThrows => s |> setFeedback "Error fetching variation data."
  end.

(** [handlePieceDrop], lines 138-175.  The function that handles a drop
    is the one the effect of lines 47-57 attached: the closure of the
    last render in which [currentOpeningId], [currentVariationName] or
    [currentIndex] changed.  What it reads of [currentMoves] is therefore
    the list of that render, [heard], and not the list of the session;
    [currentIndex] is one of the dependencies, so the index it reads is
    the session's, and [game] is the one chess.js object.  The setters
    act on the session [s]. *)
Definition handlePieceDrop (heard : list string) (source target : string)
  (s : Session) : Action * Session :=
  match heard with
  | [] =>
      (* Free-play if no moves loaded *)
      match move (game s) source target with
      | None => (Snapback, s)
      | Some (_, g) => (Drop, s |> setGame g |> setBoardPosition (fen g))
      end
  | _ :: _ =>
      match move (game s) source target with
      | None => (Snapback, s)
      | Some (san, g) =>
          let userMove := toLowerCase san in
          let correctNext :=
            option_map toLowerCase (at_index heard (currentIndex s)) in
          if truthy correctNext && strict_eq userMove correctNext then
            (Drop, s |> setGame g
                     |> setFeedback ("Good job! Move: " ++ userMove)
                     |> setWrongMove false
                     |> setLastFen (fen g)
                     |> setBoardPosition (fen g)
                     |> setCurrentIndex (currentIndex s + 1))
          else
            (Snapback, s |> setGame g
                         |> setFeedback "Wrong move!"
                         |> setWrongMove true)
      end
  end.

(** [handleResetToLastPosition], lines 178-183. *)
Definition handleResetToLastPosition (s : Session) : Session :=
  s |> setGame (load (game s) (lastFen s))
    |> setBoardPosition (lastFen s)
    |> setFeedback "Reset to last correct move."
    |> setWrongMove false.

(** [handleResetBoard], lines 186-201. *)
Definition handleResetBoard (s : Session) : Session :=
  if 0 <? len (currentMoves s) then
    s |> setGame initial |> setBoardPosition "start" |> setLastFen "start"
      |> setWrongMove false |> setCurrentIndex 0
      |> setFeedback "Board reset for this opening. Move #1."
  else
    s |> setGame initial |> setBoardPosition "start"
      |> setFeedback "Board reset in free-play mode.".

(** [enterFreeplayMode], lines 204-216. *)
Definition enterFreeplayMode (s : Session) : Session :=
  s |> setFeedback "Switched to freeplay mode."
    |> setCurrentOpeningId None
    |> setCurrentVariationName None
    |> setSelectedOpening None
    |> setCurrentMoves []
    |> setCurrentIndex 0
    |> setWrongMove false
    |> setLastFen "start"
    |> setGame initial
    |> setBoardPosition "start".

(** The game after [game.move(move)] with the result thrown away, as on
    line 223: a rejected move leaves the game as it was. *)
Definition move_unchecked (g : Game) (san : option string) : Game :=
  match san with
  | Some m => match moveSAN g m with Some (_, g') => g' | None => g end
  | None => g
  end.

(** A value inside a template literal. *)
Definition interpolate (x : option string) : string :=
  match x with Some m => m | None => "undefined" end.

(** [handleNextMove], lines 219-232. *)
Definition handleNextMove (s : Session) : Session :=
  match currentMoves s with
  | [] => s
  | _ :: _ =>
      if currentIndex s <? len (currentMoves s) then
        let m := at_index (currentMoves s) (currentIndex s) in
        let g := move_unchecked (game s) m in
        s |> setGame g |> setBoardPosition (fen g)
          |> setCurrentIndex (currentIndex s + 1)
          |> setFeedback ("Forward move: " ++ interpolate m)
          |> setWrongMove false
          |> setLastFen (fen g)
      else s |> setFeedback "End of variation!"
  end.

(** [handlePrevMove], lines 235-247. *)
Definition handlePrevMove (s : Session) : Session :=
  match currentMoves s with
  | [] => s
  | _ :: _ =>
      if currentIndex s <=? 0 then s |> setFeedback "Already at the start!"
      else
        let g := undo (game s) in
        s |> setGame g |> setBoardPosition (fen g)
          |> setCurrentIndex (currentIndex s - 1)
          |> setFeedback "Stepped back one move."
          |> setWrongMove false
          |> setLastFen (fen g)
  end.

(** [handleRandomVariation], lines 250-251: up to the [await]. *)
Definition handleRandomVariation (s : Session) : Session :=
  s |> setFeedback "Loading random variation...".

(** [handleRandomVariation], lines 252-264: once its fetch has settled; on
    success it runs [startVariationPractice] up to that function's own
    [await]. *)
Definition handleRandomVariation_settled (r : RandomResult) (s : Session)
  : Session :=
  match r with
  | RandomHttpError => s |> setFeedback "No openings found or error."
  | RandomPick openingId variationName =>
      s |> setFeedback ("Opening: " ++ openingId ++ ", Variation: " ++ variationName)
        |> startVariationPractice openingId variationName
  | RandomThrows => s |> setFeedback "Error fetching random variation."
  end.

(** [loadOpenings], lines 62-63: up to the [await]. *)
Definition loadOpenings (c : Session * Sidebar) : Session * Sidebar :=
  (fst c, mkSidebar (openings (snd c)) true).

(** [loadOpenings], lines 64-77: once the fetch has settled. *)
Definition loadOpenings_settled (r : ListResult) (c : Session * Sidebar)
  : Session * Sidebar :=
  match r with
  | ListHttpError =>
      (fst c |> setFeedback "Error loading openings.",
       mkSidebar (openings (snd c)) false)
  | ListData data => (fst c, mkSidebar data false)
  | ListThrows =>
      (fst c |> setFeedback "Error fetching openings data.",
       mkSidebar (openings (snd c)) false)
  end.

(** [handleSelectOpening], lines 83-85: up to the [await]. *)
Definition handleSelectOpening (s : Session) : Session :=
  s |> setFeedback "Loading opening details...".

(** [handleSelectOpening], lines 86-97: once the fetch has settled. *)
Definition handleSelectOpening_settled (r : DetailResult) (s : Session)
  : Session :=
  match r with
  | DetailHttpError => s |> setFeedback "Error loading the full opening details."
  | DetailData data => s |> setSelectedOpening (Some data) |> setFeedback ""
  | DetailThrows => s |> setFeedback "Error fetching the full opening details."
  end.

(** The Reset to Last button, line 514. *)
Definition resetToLastShown (s : Session) : bool :=
  (0 <? len (currentMoves s)) && wrongMove s && (0 <? currentIndex s).

(** *** The component over time

    As for [part_002], with one more cell: the move list the attached
    drop listener closes over.  One event is one render (the root is made
    with [createRoot], which batches the setters of a handler and of a
    continuation); after the render the effect of lines 47-57 runs again
    when one of its dependencies changed, and attaches the closure of
    that render.  The board the listener sits on is rendered while no
    opening detail is selected; no event below selects one. *)

(** [Object.is] on two values that are a string or [null]. *)
Definition same_value (a b : option string) : bool :=
  match a, b with
  | Some x, Some y => String.eqb x y
  | None, None => true
  | _, _ => false
  end.

(** The dependencies of the effect, line 57, between two renders. *)
Definition depsChanged (before after : Session) : bool :=
  negb (same_value (currentOpeningId before) (currentOpeningId after)
        && same_value (currentVariationName before) (currentVariationName after)
        && (currentIndex before =? currentIndex after)).

(** The move list the listener closes over after a render. *)
Definition attach (before after : Session) (heard : list string) : list string :=
  if depsChanged before after then currentMoves after else heard.

Record World : Type := mkWorld {
  session : Session;
  heard : list string;                     (* [currentMoves] in the attached listener *)
  movesFetches : list (string * string);   (* in flight: /api/openings/<id>/<variation> *)
  randomFetches : nat                      (* in flight: /api/practice/random *)
}.

(** The world after a handler has left the session [s']. *)
Definition render (w : World) (s' : Session) (fetches : list (string * string))
  (randoms : nat) : World :=
  mkWorld s' (attach (session w) s' (heard w)) fetches randoms.

(** [None]: the event cannot happen in this world (nothing to settle). *)
Definition step (e : Part002.Event) (w : World) : option World :=
  let s := session w in
  let same s' := Some (render w s' (movesFetches w) (randomFetches w)) in
  match e with
  | Part002.DropPiece source target =>
      same (snd (handlePieceDrop (heard w) source target s))
  | Part002.ClickVariation openingId variationName =>
      Some (render w (startVariationPractice openingId variationName s)
              (movesFetches w ++ [(openingId, variationName)]) (randomFetches w))
  | Part002.MovesSettled k r =>
      if Nat.ltb k (List.length (movesFetches w)) then
        Some (render w (startVariationPractice_settled r s)
                (Part002.remove_nth k (movesFetches w)) (randomFetches w))
      else None
  | Part002.ClickPrev => same (handlePrevMove s)
  | Part002.ClickNext => same (handleNextMove s)
  | Part002.ClickResetToLast => same (handleResetToLastPosition s)
  | Part002.ClickResetBoard => same (handleResetBoard s)
  | Part002.ClickFreeplay => same (enterFreeplayMode s)
  | Part002.ClickRandom =>
      Some (render w (handleRandomVariation s) (movesFetches w)
              (S (randomFetches w)))
  | Part002.RandomSettled r =>
      match randomFetches w with
      | O => None
      | S n =>
          Some (render w (handleRandomVariation_settled r s)
                  (match r with
                   | RandomPick openingId variationName =>
                       movesFetches w ++ [(openingId, variationName)]
                   | _ => movesFetches w
                   end) n)
      end
  end.

Fixpoint run (es : list Part002.Event) (w : World) : option World :=
  match es with
  | [] => Some w
  | e :: es' =>
      match step e w with
      | Some w' => run es' w'
      | None => None
      end
  end.

(** The component right after mounting: the effect has attached the
    listener of the first render, which closes over no move. *)
Definition boot : World := mkWorld mount [] [] 0.

End Handlers.
End Part003.

(** ** A small chess.js

    A table of a few opening moves with the SAN and the FEN chess.js gives
    for them.  Every move the table accepts is legal chess; what is not in
    the table is rejected.  It is the engine of the worked examples. *)

Module Mini.

Record Game : Type := mkGame {
  position : string;          (* the FEN of the current position *)
  history : list string       (* the positions [undo] goes back to, latest first *)
}.

Definition fen_start : string :=
  "rnbqkbnr/pppppppp/8/8/8/8/PPPPPPPP/RNBQKBNR w KQkq - 0 1".
Definition fen_e4 : string :=
  "rnbqkbnr/pppppppp/8/8/4P3/8/PPPP1PPP/RNBQKBNR b KQkq e3 0 1".
Definition fen_d4 : string :=
  "rnbqkbnr/pppppppp/8/8/3P4/8/PPP1PPPP/RNBQKBNR b KQkq d3 0 1".
Definition fen_e4_e5 : string :=
  "rnbqkbnr/pppp1ppp/8/4p3/4P3/8/PPPP1PPP/RNBQKBNR w KQkq e6 0 2".
Definition fen_e4_d5 : string :=
  "rnbqkbnr/ppp1pppp/8/3p4/4P3/8/PPPP1PPP/RNBQKBNR w KQkq d6 0 2".
Definition fen_e4_e5_Nf3 : string :=
  "rnbqkbnr/pppp1ppp/8/4p3/4P3/5N2/PPPP1PPP/RNBQKB1R b KQkq - 1 2".

Record Row : Type := mkRow {
  before : string; from : string; to : string; san : string; after : string
}.

Definition table : list Row :=
  [ mkRow fen_start "e2" "e4" "e4" fen_e4;
    mkRow fen_start "d2" "d4" "d4" fen_d4;
    mkRow fen_e4 "e7" "e5" "e5" fen_e4_e5;
    mkRow fen_e4 "d7" "d5" "d5" fen_e4_d5;
    mkRow fen_e4_e5 "g1" "f3" "Nf3" fen_e4_e5_Nf3 ].

Definition play (g : Game) (r : option Row) : option (string * Game) :=
  match r with
  | Some r => Some (san r, mkGame (after r) (position g :: history g))
  | None => None
  end.

Definition move (g : Game) (source target : string) : option (string * Game) :=
  play g (find (fun r => String.eqb (before r) (position g)
                         && String.eqb (from r) source
                         && String.eqb (to r) target) table).

Definition moveSAN (g : Game) (m : string) : option (string * Game) :=
  play g (find (fun r => String.eqb (before r) (position g)
                         && String.eqb (san r) m) table).

Definition undo (g : Game) : Game :=
  match history g with
  | p :: h => mkGame p h
  | [] => g
  end.

Definition known (f : string) : bool :=
  existsb (fun r => String.eqb (before r) f || String.eqb (after r) f) table.

(** [load] of a string that is no FEN (such as ["start"]) fails and
    leaves the game alone; a FEN replaces the position and empties the
    history. *)
Definition load (g : Game) (f : string) : Game :=
  if known f then mkGame f [] else g.

Definition initial : Game := mkGame fen_start [].

#[export] Instance chess : Chess :=
  Build_Chess initial move moveSAN undo position load.

End Mini.

(** ** Worked sessions on the small engine *)

Module Play.
Import Mini.

Definition mainLine : list string := ["e4"; "e5"; "Nf3"].

(** [part_002]: a variation whose fetch fails. *)
Definition failedLoad002 : Part002.Session :=
  Part002.mount |> Part002.startVariationPractice "1" "Main Line"
                |> Part002.startVariationPractice_settled HttpError.

(** [part_002]: the main line loaded, then d2-d4 dropped instead of e4. *)
Definition afterWrongDrop002 : Part002.Session :=
  Part002.mount |> Part002.startVariationPractice "1" "Main Line"
                |> Part002.startVariationPractice_settled (MovesArray mainLine)
                |> (fun s => snd (Part002.handlePieceDrop "d2" "d4" s)).

(** [part_002]: variation A is picked, then B before A's fetch settles;
    B's fetch settles first and A's after it. *)
Definition staleRace : list Part002.Event :=
  [ Part002.ClickVariation "1" "A"; Part002.ClickVariation "2" "B";
    Part002.MovesSettled 1 (MovesArray ["d4"]);
    Part002.MovesSettled 0 (MovesArray ["e4"; "e5"]) ].

(** [part_002]: as above with the payloads exchanged, and two presses of
    Next between the two settlements. *)
Definition staleShrink : list Part002.Event :=
  [ Part002.ClickVariation "1" "A"; Part002.ClickVariation "2" "B";
    Part002.MovesSettled 1 (MovesArray ["e4"; "e5"]);
    Part002.ClickNext; Part002.ClickNext;
    Part002.MovesSettled 0 (MovesArray ["d4"]) ].

(** [part_002]: one load at a time, a correct drop, a wrong one, reset. *)
Definition lesson : list Part002.Event :=
  [ Part002.ClickVariation "1" "Main Line";
    Part002.MovesSettled 0 (MovesArray mainLine);
    Part002.DropPiece "e2" "e4"; Part002.DropPiece "d7" "d5";
    Part002.ClickResetToLast; Part002.ClickNext; Part002.ClickPrev ].

(** [part_002]: the main line loaded, e2-e4 dropped (right), then d7-d5
    (wrong). *)
Definition afterRightThenWrong002 : Part002.Session :=
  Part002.mount |> Part002.startVariationPractice "1" "Main Line"
                |> Part002.startVariationPractice_settled (MovesArray mainLine)
                |> (fun s => snd (Part002.handlePieceDrop "e2" "e4" s))
                |> (fun s => snd (Part002.handlePieceDrop "d7" "d5" s)).

(** [part_003] as events: a variation whose fetch fails. *)
Definition failedLoadEvents003 : list Part002.Event :=
  [ Part002.ClickVariation "1" "Main Line"; Part002.MovesSettled 0 HttpError ].

(** [part_003] as events: the main line loaded, nothing pressed yet. *)
Definition loadEvents003 : list Part002.Event :=
  [ Part002.ClickVariation "1" "Main Line";
    Part002.MovesSettled 0 (MovesArray mainLine) ].

(** [part_003] as events: the main line loaded and Next pressed once. *)
Definition loadAndNextEvents003 : list Part002.Event :=
  [ Part002.ClickVariation "1" "Main Line";
    Part002.MovesSettled 0 (MovesArray mainLine); Part002.ClickNext ].

(** [part_003] as events: a one-move variation stepped to its end. *)
Definition completeEvents003 : list Part002.Event :=
  [ Part002.ClickVariation "1" "King's Pawn";
    Part002.MovesSettled 0 (MovesArray ["e4"]); Part002.ClickNext ].

(** [part_003] as events: the main line loaded, Next and Prev pressed,
    the same variation picked again, and this time the fetch fails. *)
Definition failedReloadEvents003 : list Part002.Event :=
  [ Part002.ClickVariation "1" "Main Line";
    Part002.MovesSettled 0 (MovesArray mainLine);
    Part002.ClickNext; Part002.ClickPrev;
    Part002.ClickVariation "1" "Main Line"; Part002.MovesSettled 0 HttpError ].

(** [part_003] as events: a variation picked, free play entered, and the
    fetch settling after that. *)
Definition lateFetchEvents003 : list Part002.Event :=
  [ Part002.ClickVariation "1" "Main Line"; Part002.ClickFreeplay;
    Part002.MovesSettled 0 (MovesArray mainLine) ].

(** [part_003]: a variation whose fetch fails. *)
Definition failedLoad003 : Part003.Session :=
  Part003.mount |> Part003.startVariationPractice "1" "Main Line"
                |> Part003.startVariationPractice_settled HttpError.

(** [part_003]: the main line loaded and Next pressed once; the index has
    changed, so the drop listener is the one of this render. *)
Definition afterNext003 : Part003.Session :=
  Part003.mount |> Part003.startVariationPractice "1" "Main Line"
                |> Part003.startVariationPractice_settled (MovesArray mainLine)
                |> Part003.handleNextMove.

(** [part_003]: a one-move variation stepped to its end. *)
Definition completed003 : Part003.Session :=
  Part003.mount |> Part003.startVariationPractice "1" "King's Pawn"
                |> Part003.startVariationPractice_settled (MovesArray ["e4"])
                |> Part003.handleNextMove.

(** [part_003]: a stored sequence that does not start with a move of
    White. *)
Definition corrupted003 : Part003.Session :=
  Part003.mount |> Part003.startVariationPractice "1" "Broken"
                |> Part003.startVariationPractice_settled (MovesArray ["e5"; "e4"]).

(** The same in [part_002]. *)
Definition corrupted002 : Part002.Session :=
  Part002.mount |> Part002.startVariationPractice "1" "Broken"
                |> Part002.startVariationPractice_settled (MovesArray ["e5"; "e4"]).

(** [part_002]: the one-move variation completed by the right drop. *)
Definition completed002 : Part002.Session :=
  Part002.mount |> Part002.startVariationPractice "1" "King's Pawn"
                |> Part002.startVariationPractice_settled (MovesArray ["e4"])
                |> (fun s => snd (Part002.handlePieceDrop "e2" "e4" s)).

End Play.


(** ** What the runs of [part_002] maintain *)

(** The move list a settled fetch leaves, [old] being the list before. *)
Definition payload_or (r : FetchResult) (old : list string) : list string :=
  match r with
  | MovesArray movesData => movesData
  | _ => old
  end.

Section Maintained.
Context {chess : Chess}.

(** Kept by every event: neither index is negative, and [lastFenIndex]
    is 0 only together with the start keyword in [lastFen]. *)
Definition tracked (s : Part002.Session) : Prop :=
  0 <= Part002.currentIndex s /\
  0 <= Part002.lastFenIndex s /\
  (Part002.lastFenIndex s = 0 -> Part002.lastFen s = "start").

(** Kept as long as move lists are fetched one at a time: both indexes
    stay within the move list, and while a fetch is in flight the list is
    the empty one [startVariationPractice] left. *)
Definition in_step (w : Part002.World) : Prop :=
  Part002.currentIndex (Part002.session w)
    <= len (Part002.currentMoves (Part002.session w)) /\
  Part002.lastFenIndex (Part002.session w)
    <= len (Part002.currentMoves (Part002.session w)) /\
  (List.length (Part002.movesFetches w) <= 1)%nat /\
  (Part002.movesFetches w <> [] ->
   Part002.currentMoves (Part002.session w) = []).

End Maintained.

(** ** The small chess.js with its positions as a type

    The same moves as [Mini]; a game can only be in one of the positions
    of the table, and [load] reads back every FEN [fen] prints. *)

Module Tab.

Inductive Position : Type := Start | E4 | D4 | E4_e5 | E4_d5 | E4_e5_Nf3.

Definition positions : list Position := [Start; E4; D4; E4_e5; E4_d5; E4_e5_Nf3].

Definition print (p : Position) : string :=
  match p with
  | Start => Mini.fen_start
  | E4 => Mini.fen_e4
  | D4 => Mini.fen_d4
  | E4_e5 => Mini.fen_e4_e5
  | E4_d5 => Mini.fen_e4_d5
  | E4_e5_Nf3 => Mini.fen_e4_e5_Nf3
  end.

Definition parse (f : string) : option Position :=
  find (fun p => String.eqb (print p) f) positions.

Record Game : Type := mkGame {
  position : Position;
  history : list Position
}.

Definition play (g : Game) (r : option Mini.Row) : option (string * Game) :=
  match r with
  | Some r =>
      match parse (Mini.after r) with
      | Some p => Some (Mini.san r, mkGame p (position g :: history g))
      | None => None
      end
  | None => None
  end.

Definition move (g : Game) (source target : string) : option (string * Game) :=
  play g (find (fun r => String.eqb (Mini.before r) (print (position g))
                         && String.eqb (Mini.from r) source
                         && String.eqb (Mini.to r) target) Mini.table).

Definition moveSAN (g : Game) (m : string) : option (string * Game) :=
  play g (find (fun r => String.eqb (Mini.before r) (print (position g))
                         && String.eqb (Mini.san r) m) Mini.table).

Definition undo (g : Game) : Game :=
  match history g with
  | p :: h => mkGame p h
  | [] => g
  end.

Definition load (g : Game) (f : string) : Game :=
  match parse f with
  | Some p => mkGame p []
  | None => g
  end.

Definition initial : Game := mkGame Start [].

#[export] Instance chess : Chess :=
  Build_Chess initial move moveSAN undo (fun g => print (position g)) load.

End Tab.

(** ** Lines of moves, and what a session shows *)

Section Lines.
Context {chess : Chess}.

(** The game after the moves of [line] have gone through [game.move(san)]
    one after the other; [None] when one of them is rejected. *)
Fixpoint replay (g : Game) (line : list string) : option Game :=
  match line with
  | [] => Some g
  | m :: rest =>
      match moveSAN g m with
      | Some (_, g') => replay g' rest
      | None => None
      end
  end.

(** Two sessions of [part_002] that differ at most in the feedback text
    and in the position string handed to the board. *)
Definition same_progress (s s' : Part002.Session) : Prop :=
  Part002.game s = Part002.game s' /\
  Part002.currentOpeningId s = Part002.currentOpeningId s' /\
  Part002.currentVariationName s = Part002.currentVariationName s' /\
  Part002.currentMoves s = Part002.currentMoves s' /\
  Part002.currentIndex s = Part002.currentIndex s' /\
  Part002.wrongMove s = Part002.wrongMove s' /\
  Part002.lastFen s = Part002.lastFen s' /\
  Part002.lastFenIndex s = Part002.lastFenIndex s' /\
  Part002.selectedOpening s = Part002.selectedOpening s'.

(** The board of [part_002] shows the game: either the start keyword
    with the game reset, or the FEN the game prints. *)
Definition board_shows_game (s : Part002.Session) : Prop :=
  (Part002.boardPosition s = "start" /\ Part002.game s = initial) \/
  Part002.boardPosition s = fen (Part002.game s).

(** [lastFen] of [part_002] is a FEN some game printed whenever
    [lastFenIndex] is not 0. *)
Definition lastFen_printed (s : Part002.Session) : Prop :=
  Part002.lastFenIndex s <> 0 -> exists g : Game, Part002.lastFen s = fen g.

(** With no move loaded the session of [part_002] is at its start:
    index 0, no wrong-move flag. *)
Definition idle_when_empty (s : Part002.Session) : Prop :=
  Part002.currentMoves s = [] ->
  Part002.currentIndex s = 0 /\ Part002.wrongMove s = false /\
  Part002.lastFenIndex s = 0 /\ Part002.lastFen s = "start".

End Lines.

(** [n] slashes. *)
Fixpoint slashes (n : nat) : string :=
  match n with
  | O => EmptyString
  | S k => String "/"%char (slashes k)
  end.

(** ** Properties of the handlers *)

Section Resets.
Context {chess : Chess}.

(** C8.  [enterFreeplayMode], from any session: no moves, index 0, no
    wrong-move flag, no opening id and no variation name, [lastFen] back
    to the start keyword ([lastFenIndex] back to 0 where the cell
    exists), the game reset; and entering free play a second time changes
    nothing.  Both files. *)
Theorem enterFreeplayMode_clears_and_idempotent :
  (forall s : Part002.Session,
      let s' := Part002.enterFreeplayMode s in
      Part002.currentMoves s' = [] /\ Part002.currentIndex s' = 0 /\
      Part002.wrongMove s' = false /\
      Part002.currentOpeningId s' = None /\
      Part002.currentVariationName s' = None /\
      Part002.lastFen s' = "start" /\ Part002.lastFenIndex s' = 0 /\
      Part002.game s' = initial /\ Part002.boardPosition s' = "start" /\
      Part002.mode s' = Part002.FreePlay /\
      Part002.enterFreeplayMode s' = s') /\
  (forall s : Part003.Session,
      let s' := Part003.enterFreeplayMode s in
      Part003.currentMoves s' = [] /\ Part003.currentIndex s' = 0 /\
      Part003.wrongMove s' = false /\
      Part003.currentOpeningId s' = None /\
      Part003.currentVariationName s' = None /\
      Part003.lastFen s' = "start" /\
      Part003.game s' = initial /\ Part003.boardPosition s' = "start" /\
      Part003.enterFreeplayMode s' = s').
Proof.
  split; intros s; cbv zeta; repeat split.
Qed.

(** C10.  [handleResetBoard] with moves loaded resets the progress (index,
    [lastFen], [lastFenIndex], wrong-move flag, board and game) and keeps
    the opening id, the variation name and the move list.  Both files. *)
Theorem handleResetBoard_keeps_variation :
  (forall s : Part002.Session,
      Part002.currentMoves s <> [] ->
      let s' := Part002.handleResetBoard s in
      Part002.currentOpeningId s' = Part002.currentOpeningId s /\
      Part002.currentVariationName s' = Part002.currentVariationName s /\
      Part002.currentMoves s' = Part002.currentMoves s /\
      Part002.currentIndex s' = 0 /\
      Part002.lastFen s' = "start" /\ Part002.lastFenIndex s' = 0 /\
      Part002.wrongMove s' = false /\
      Part002.boardPosition s' = "start" /\ Part002.game s' = initial) /\
  (forall s : Part003.Session,
      Part003.currentMoves s <> [] ->
      let s' := Part003.handleResetBoard s in
      Part003.currentOpeningId s' = Part003.currentOpeningId s /\
      Part003.currentVariationName s' = Part003.currentVariationName s /\
      Part003.currentMoves s' = Part003.currentMoves s /\
      Part003.currentIndex s' = 0 /\
      Part003.lastFen s' = "start" /\
      Part003.wrongMove s' = false /\
      Part003.boardPosition s' = "start" /\ Part003.game s' = initial).
Proof.
  split; intros s Hmoves; cbv zeta.
  - unfold Part002.handleResetBoard.
    destruct (Part002.currentMoves s) as [|m ms] eqn:E; [congruence|].
    replace (0 <? len (m :: ms)) with true
      by (symmetry; apply Z.ltb_lt; unfold len; simpl; lia).
    cbn. rewrite E. repeat split.
  - unfold Part003.handleResetBoard.
    destruct (Part003.currentMoves s) as [|m ms] eqn:E; [congruence|].
    replace (0 <? len (m :: ms)) with true
      by (symmetry; apply Z.ltb_lt; unfold len; simpl; lia).
    cbn. rewrite E. repeat split.
Qed.

End Resets.

Section ResetToLast.
Context {chess : Chess}.

(** With moves loaded, [lastFenIndex] at 0 and [lastFen] the start
    keyword, [handleResetToLastPosition] and [handleResetBoard] differ in
    the feedback text only. *)
Lemma handleResetToLastPosition_as_handleResetBoard (s : Part002.Session)
    (text : string) :
  Part002.lastFenIndex s = 0 -> Part002.currentMoves s <> [] ->
  Part002.lastFen s = "start" ->
  Part002.setFeedback text (Part002.handleResetToLastPosition s) =
  Part002.setFeedback text (Part002.handleResetBoard s).
Proof.
  intros Hzero Hmoves Hfen.
  unfold Part002.handleResetToLastPosition, Part002.handleResetBoard.
  rewrite Hzero. cbn [Z.eqb].
  replace (0 <? len (Part002.currentMoves s)) with true.
  - destruct s; cbn in *; subst; reflexivity.
  - symmetry. apply Z.ltb_lt. unfold len.
    destruct (Part002.currentMoves s); [congruence | simpl; lia].
Qed.

(** C7.  [handleResetToLastPosition] of [part_002], the file that keeps
    [lastFenIndex].  With [lastFenIndex > 0] it loads [lastFen] into the
    game, sets the index to [lastFenIndex] and clears the wrong-move flag.
    With [lastFenIndex = 0] it resets the game, shows the start position,
    sets the index to 0 and clears the flag; when moves are loaded and
    [lastFen] is still the start keyword, that is the session
    [handleResetBoard] gives, up to the feedback text. *)
Theorem handleResetToLastPosition_cases (s : Part002.Session) :
  let s' := Part002.handleResetToLastPosition s in
  (0 < Part002.lastFenIndex s ->
     Part002.game s' = load (Part002.game s) (Part002.lastFen s) /\
     Part002.boardPosition s' = Part002.lastFen s /\
     Part002.currentIndex s' = Part002.lastFenIndex s /\
     Part002.wrongMove s' = false) /\
  (Part002.lastFenIndex s = 0 ->
     Part002.game s' = initial /\
     Part002.boardPosition s' = "start" /\
     Part002.currentIndex s' = 0 /\
     Part002.wrongMove s' = false /\
     Part002.game s' = Part002.game (Part002.handleResetBoard s) /\
     Part002.boardPosition s' = Part002.boardPosition (Part002.handleResetBoard s) /\
     (Part002.currentMoves s <> [] -> Part002.lastFen s = "start" ->
      forall text,
        Part002.setFeedback text s' =
        Part002.setFeedback text (Part002.handleResetBoard s))).
Proof.
  cbv zeta. unfold Part002.handleResetToLastPosition. split.
  - intros Hpos.
    replace (Part002.lastFenIndex s =? 0) with false
      by (symmetry; apply Z.eqb_neq; lia).
    repeat split.
  - intros Hzero.
    assert (Hsame : Part002.currentMoves s <> [] -> Part002.lastFen s = "start" ->
              forall text,
                Part002.setFeedback text (Part002.handleResetToLastPosition s) =
                Part002.setFeedback text (Part002.handleResetBoard s))
      by (intros Hmoves Hfen text;
          now apply handleResetToLastPosition_as_handleResetBoard).
    unfold Part002.handleResetToLastPosition in *. rewrite Hzero in *.
    cbn [Z.eqb] in *. unfold Part002.handleResetBoard in *.
    destruct (0 <? len (Part002.currentMoves s));
      (repeat split; [ ]); exact Hsame.
Qed.

End ResetToLast.

Section Indexing.

Lemma at_index_Some (arr : list string) (i : Z) (x : string) :
  at_index arr i = Some x -> arr <> [] /\ 0 <= i < len arr.
Proof.
  unfold at_index, len. destruct (i <? 0) eqn:Hneg; [discriminate|].
  apply Z.ltb_ge in Hneg. intros Hnth.
  assert (Hlt : (Z.to_nat i < List.length arr)%nat)
    by (apply nth_error_Some; congruence).
  split; [destruct arr; [simpl in Hlt; lia | discriminate] | lia].
Qed.

Lemma at_index_past_end (arr : list string) (i : Z) :
  len arr <= i -> at_index arr i = None.
Proof.
  unfold at_index, len. intros Hge.
  destruct (i <? 0); [reflexivity|].
  apply nth_error_None. lia.
Qed.

Lemma strict_eq_false (a b : string) :
  a <> b -> strict_eq a (Some b) = false.
Proof. intros Hne. simpl. now apply String.eqb_neq. Qed.

End Indexing.

Section Drops.
Context {chess : Chess}.

(** The wrong-move branch of [part_002]: a legal drop whose SAN differs,
    letters lowered, from the expected move is snapped back, raises the
    wrong-move flag, keeps the index, and the game is given back the FEN
    taken before the attempt. *)
Lemma handlePieceDrop_wrong_move (s : Part002.Session)
    (source target san expected : string) (g : Game) :
  at_index (Part002.currentMoves s) (Part002.currentIndex s) = Some expected ->
  move (Part002.game s) source target = Some (san, g) ->
  toLowerCase san <> toLowerCase expected ->
  let beforeFen := fen (Part002.game s) in
  let r := Part002.handlePieceDrop source target s in
  fst r = Snapback /\
  Part002.game (snd r) = load g beforeFen /\
  Part002.boardPosition (snd r) = beforeFen /\
  Part002.wrongMove (snd r) = true /\
  Part002.currentIndex (snd r) = Part002.currentIndex s /\
  Part002.currentMoves (snd r) = Part002.currentMoves s /\
  Part002.lastFen (snd r) = Part002.lastFen s /\
  Part002.lastFenIndex (snd r) = Part002.lastFenIndex s /\
  Part002.feedback (snd r) = "Wrong move!".
Proof.
  intros Hexp Hmove Hne. cbv zeta.
  destruct (at_index_Some _ _ Hexp) as [Hmoves Hidx].
  unfold Part002.handlePieceDrop.
  destruct (Part002.currentMoves s) as [|m ms] eqn:E; [congruence|].
  replace (len (m :: ms) <=? Part002.currentIndex s) with false
    by (symmetry; apply Z.leb_gt; lia).
  rewrite Hmove, Hexp. cbn [option_map].
  rewrite (strict_eq_false Hne). cbn. rewrite E. repeat split.
Qed.

(** With a chess.js whose [load] of a FEN it printed restores the printed
    position, the position after a wrong drop is the position before it. *)
Lemma handlePieceDrop_wrong_move_position (s : Part002.Session)
    (source target san expected : string) (g : Game) :
  fen (load g (fen (Part002.game s))) = fen (Part002.game s) ->
  at_index (Part002.currentMoves s) (Part002.currentIndex s) = Some expected ->
  move (Part002.game s) source target = Some (san, g) ->
  toLowerCase san <> toLowerCase expected ->
  fen (Part002.game (snd (Part002.handlePieceDrop source target s)))
  = fen (Part002.game s).
Proof.
  intros Hload Hexp Hmove Hne.
  destruct (handlePieceDrop_wrong_move s source target Hexp Hmove Hne)
    as (_ & Hgame & _).
  rewrite Hgame. exact Hload.
Qed.

(** The end-of-variation guard of [part_002]: with moves loaded and the
    index at (or past) their number, a drop is snapped back before the
    game is asked anything; only the feedback changes. *)
Lemma handlePieceDrop_completed (s : Part002.Session) (source target : string) :
  Part002.currentMoves s <> [] ->
  len (Part002.currentMoves s) <= Part002.currentIndex s ->
  Part002.handlePieceDrop source target s =
  (Snapback, Part002.setFeedback "No more moves in this variation." s).
Proof.
  intros Hmoves Hidx. unfold Part002.handlePieceDrop.
  destruct (Part002.currentMoves s) as [|m ms] eqn:E; [congruence|].
  replace (len (m :: ms) <=? Part002.currentIndex s) with true
    by (symmetry; apply Z.leb_le; lia).
  reflexivity.
Qed.

(** The correct branch of [part_002]. *)
Lemma handlePieceDrop_correct (s : Part002.Session)
    (source target san expected : string) (g : Game) :
  at_index (Part002.currentMoves s) (Part002.currentIndex s) = Some expected ->
  move (Part002.game s) source target = Some (san, g) ->
  toLowerCase san = toLowerCase expected ->
  let r := Part002.handlePieceDrop source target s in
  fst r = Drop /\
  Part002.game (snd r) = g /\
  Part002.currentIndex (snd r) = Part002.currentIndex s + 1 /\
  Part002.lastFen (snd r) = fen g /\
  Part002.lastFenIndex (snd r) = Part002.currentIndex s + 1 /\
  Part002.wrongMove (snd r) = false.
Proof.
  intros Hexp Hmove Heq. cbv zeta.
  destruct (at_index_Some _ _ Hexp) as [Hmoves Hidx].
  unfold Part002.handlePieceDrop.
  destruct (Part002.currentMoves s) as [|m ms] eqn:E; [congruence|].
  replace (len (m :: ms) <=? Part002.currentIndex s) with false
    by (symmetry; apply Z.leb_gt; lia).
  rewrite Hmove, Hexp. cbn [option_map strict_eq].
  rewrite Heq, String.eqb_refl. repeat split.
Qed.

(** An illegal drop in [part_002]: snapped back, nothing but the feedback
    changes. *)
Lemma handlePieceDrop_illegal (s : Part002.Session) (source target : string) :
  move (Part002.game s) source target = None ->
  exists text,
    Part002.handlePieceDrop source target s = (Snapback, Part002.setFeedback text s).
Proof.
  intros Hmove. unfold Part002.handlePieceDrop. rewrite Hmove.
  destruct (Part002.currentMoves s); [eauto|].
  destruct (_ <=? _); eauto.
Qed.

(** [part_003] has one branch for every legal drop that is not the move
    the listener expects, the end of the list it closes over included:
    snapped back, flag raised, index kept, and the game left with the
    move applied. *)
Lemma part003_handlePieceDrop_not_expected (heard : list string)
    (s : Part003.Session) (source target san : string) (g : Game) :
  heard <> [] ->
  move (Part003.game s) source target = Some (san, g) ->
  strict_eq (toLowerCase san)
    (option_map toLowerCase (at_index heard (Part003.currentIndex s))) = false ->
  Part003.handlePieceDrop heard source target s =
  (Snapback, s |> Part003.setGame g |> Part003.setFeedback "Wrong move!"
               |> Part003.setWrongMove true).
Proof.
  intros Hmoves Hmove Hne. unfold Part003.handlePieceDrop.
  destruct heard as [|m ms]; [congruence|].
  rewrite Hmove. cbv zeta. rewrite Hne, andb_false_r. reflexivity.
Qed.

End Drops.

Section Stepping.
Context {chess : Chess}.


(** [handleNextMove] of [part_002] checks what [game.move] returns: when
    the stored move is rejected only the feedback changes. *)
Lemma handleNextMove_rejected (s : Part002.Session) (expected : string) :
  at_index (Part002.currentMoves s) (Part002.currentIndex s) = Some expected ->
  moveSAN (Part002.game s) expected = None ->
  Part002.handleNextMove s =
  Part002.setFeedback "Invalid move sequence? Could not apply next move." s.
Proof.
  intros Hexp Hmove. destruct (at_index_Some _ _ Hexp) as [Hmoves Hidx].
  unfold Part002.handleNextMove.
  destruct (Part002.currentMoves s) as [|m ms] eqn:E; [congruence|].
  replace (len (m :: ms) <=? Part002.currentIndex s) with false
    by (symmetry; apply Z.leb_gt; lia).
  now rewrite Hexp, Hmove.
Qed.

(** [handleNextMove] of [part_003] does not: the index grows and
    [lastFen] is rewritten although the game has not moved. *)
Lemma part003_handleNextMove_rejected (s : Part003.Session) (expected : string) :
  at_index (Part003.currentMoves s) (Part003.currentIndex s) = Some expected ->
  moveSAN (Part003.game s) expected = None ->
  let s' := Part003.handleNextMove s in
  Part003.game s' = Part003.game s /\
  Part003.currentIndex s' = Part003.currentIndex s + 1 /\
  Part003.feedback s' = "Forward move: " ++ expected.
Proof.
  intros Hexp Hmove. cbv zeta. destruct (at_index_Some _ _ Hexp) as [Hmoves Hidx].
  unfold Part003.handleNextMove.
  destruct (Part003.currentMoves s) as [|m ms] eqn:E; [congruence|].
  replace (Part003.currentIndex s <? len (m :: ms)) with true
    by (symmetry; apply Z.ltb_lt; lia).
  rewrite Hexp. unfold Part003.move_unchecked. rewrite Hmove.
  repeat split.
Qed.

End Stepping.

Section FailedLoad.
Context {chess : Chess}.

Lemma same_value_refl (a : option string) : Part003.same_value a a = true.
Proof. destruct a; [apply String.eqb_refl | reflexivity]. Qed.


(** The settled half of [startVariationPractice] of [part_003] changes no
    dependency of the effect: the listener stays. *)
Lemma settled_keeps_listener (r : FetchResult) (s : Part003.Session)
    (heard : list string) :
  Part003.attach s (Part003.startVariationPractice_settled r s) heard = heard.
Proof.
  unfold Part003.attach, Part003.depsChanged.
  destruct r; cbn; now rewrite !same_value_refl, Z.eqb_refl.
Qed.



End FailedLoad.

Section Runs.
Context {chess : Chess}.
Local Open Scope list_scope.

Lemma remove_nth_here {A : Type} (l : list A) (x : A) (r : list A) :
  Part002.remove_nth (List.length l) (l ++ x :: r)%list = (l ++ r)%list.
Proof.
  unfold Part002.remove_nth. induction l as [|a l IH]; simpl; [reflexivity|].
  now f_equal.
Qed.

Lemma remove_nth_next {A : Type} (l : list A) (x y : A) (r : list A) :
  Part002.remove_nth (S (List.length l)) (l ++ x :: y :: r)%list = (l ++ x :: r)%list.
Proof.
  unfold Part002.remove_nth. induction l as [|a l IH]; simpl; [reflexivity|].
  now f_equal.
Qed.

Lemma run_app (es1 es2 : list Part002.Event) (w : Part002.World) :
  Part002.run (es1 ++ es2) w =
  match Part002.run es1 w with
  | Some w' => Part002.run es2 w'
  | None => None
  end.
Proof.
  revert w. induction es1 as [|e es1 IH]; intros w; simpl; [reflexivity|].
  destruct (Part002.step e w); [apply IH | reflexivity].
Qed.

Lemma settle_here (w : Part002.World) (l r : list (string * string))
    (x : string * string) (res : FetchResult) :
  Part002.movesFetches w = l ++ x :: r ->
  Part002.step (Part002.MovesSettled (List.length l) res) w =
  Some (Part002.mkWorld
          (Part002.startVariationPractice_settled res (Part002.session w))
          (l ++ r) (Part002.randomFetches w)).
Proof.
  intros Hf. unfold Part002.step. rewrite Hf, remove_nth_here.
  replace (Nat.ltb _ _) with true; [reflexivity|].
  symmetry. apply Nat.ltb_lt. rewrite length_app. simpl. lia.
Qed.

Lemma settle_next (w : Part002.World) (l r : list (string * string))
    (x y : string * string) (res : FetchResult) :
  Part002.movesFetches w = l ++ x :: y :: r ->
  Part002.step (Part002.MovesSettled (S (List.length l)) res) w =
  Some (Part002.mkWorld
          (Part002.startVariationPractice_settled res (Part002.session w))
          (l ++ x :: r) (Part002.randomFetches w)).
Proof.
  intros Hf. unfold Part002.step. rewrite Hf, remove_nth_next.
  replace (Nat.ltb _ _) with true; [reflexivity|].
  symmetry. apply Nat.ltb_lt. rewrite length_app. simpl. lia.
Qed.

Lemma settled_moves (res : FetchResult) (s : Part002.Session) :
  Part002.currentMoves (Part002.startVariationPractice_settled res s)
  = payload_or res (Part002.currentMoves s).
Proof. destruct res; reflexivity. Qed.

Lemma settled_identity (res : FetchResult) (s : Part002.Session) :
  Part002.currentOpeningId (Part002.startVariationPractice_settled res s)
  = Part002.currentOpeningId s /\
  Part002.currentVariationName (Part002.startVariationPractice_settled res s)
  = Part002.currentVariationName s.
Proof. destruct res; split; reflexivity. Qed.

(** C2, as the code has it.  Variation A is picked and then B while A's
    fetch is in flight.  Whichever fetch settles first, both settle, the
    opening id and the variation name are B's, and the move list is the
    payload of the fetch that settled last (when that one failed, the
    payload of the other, and the empty list when both failed): B's when
    A settles first, A's when A settles after B. *)
Theorem overlapping_loads_last_settled_wins (w : Part002.World)
    (idA nameA idB nameB : string) (rA rB : FetchResult) :
  let n := List.length (Part002.movesFetches w) in
  let picks := [Part002.ClickVariation idA nameA; Part002.ClickVariation idB nameB] in
  exists wAB wBA : Part002.World,
    Part002.run (picks ++ [Part002.MovesSettled n rA; Part002.MovesSettled n rB]) w
      = Some wAB /\
    Part002.run (picks ++ [Part002.MovesSettled (S n) rB; Part002.MovesSettled n rA]) w
      = Some wBA /\
    Part002.currentOpeningId (Part002.session wAB) = Some idB /\
    Part002.currentVariationName (Part002.session wAB) = Some nameB /\
    Part002.currentOpeningId (Part002.session wBA) = Some idB /\
    Part002.currentVariationName (Part002.session wBA) = Some nameB /\
    Part002.currentMoves (Part002.session wAB) = payload_or rB (payload_or rA []) /\
    Part002.currentMoves (Part002.session wBA) = payload_or rA (payload_or rB []) /\
    Part002.movesFetches wAB = Part002.movesFetches w /\
    Part002.movesFetches wBA = Part002.movesFetches w.
Proof.
  cbv zeta.
  set (l := Part002.movesFetches w).
  set (s2 := Part002.startVariationPractice idB nameB
               (Part002.startVariationPractice idA nameA (Part002.session w))).
  set (w2 := Part002.mkWorld s2 (l ++ [(idA, nameA); (idB, nameB)])
               (Part002.randomFetches w)).
  assert (Hpicks : Part002.run
            [Part002.ClickVariation idA nameA; Part002.ClickVariation idB nameB] w
          = Some w2).
  { unfold w2, s2, l. simpl. now rewrite <- app_assoc. }
  rewrite !run_app, Hpicks.
  exists (Part002.mkWorld
            (Part002.startVariationPractice_settled rB
               (Part002.startVariationPractice_settled rA s2))
            l (Part002.randomFetches w)),
         (Part002.mkWorld
            (Part002.startVariationPractice_settled rA
               (Part002.startVariationPractice_settled rB s2))
            l (Part002.randomFetches w)).
  split; [|split].
  - cbn [Part002.run].
    erewrite settle_here by reflexivity.
    erewrite settle_here by reflexivity.
    cbn. now rewrite app_nil_r.
  - cbn [Part002.run].
    erewrite settle_next by reflexivity.
    erewrite settle_here by reflexivity.
    cbn. now rewrite app_nil_r.
  - cbn [Part002.session Part002.movesFetches].
    rewrite !settled_moves.
    destruct (settled_identity rB (Part002.startVariationPractice_settled rA s2)) as [-> ->].
    destruct (settled_identity rA s2) as [-> ->].
    destruct (settled_identity rA (Part002.startVariationPractice_settled rB s2)) as [-> ->].
    destruct (settled_identity rB s2) as [-> ->].
    repeat split.
Qed.

(** [part_003] has the same two halves of [startVariationPractice]: with
    A picked, then B, then B's fetch settled and A's after it, the id and
    the name are B's and the moves are those A's fetch brought. *)
Lemma part003_overlapping_loads (s : Part003.Session)
    (idA nameA idB nameB : string) (rA rB : FetchResult) :
  let s' := s |> Part003.startVariationPractice idA nameA
              |> Part003.startVariationPractice idB nameB
              |> Part003.startVariationPractice_settled rB
              |> Part003.startVariationPractice_settled rA in
  Part003.currentOpeningId s' = Some idB /\
  Part003.currentVariationName s' = Some nameB /\
  Part003.currentMoves s' = payload_or rA (payload_or rB []).
Proof. cbv zeta. destruct rA, rB; repeat split. Qed.

End Runs.

Section Bounds.
Context {chess : Chess}.

Ltac handler_cases :=
  repeat match goal with
         | |- context [match ?x with _ => _ end] => destruct x eqn:?
         | |- context [if ?b then _ else _] => destruct b eqn:?
         end.

Ltac to_arith :=
  repeat match goal with
         | H : (_ <=? _) = true |- _ => apply Z.leb_le in H
         | H : (_ <=? _) = false |- _ => apply Z.leb_gt in H
         | H : (_ <? _) = true |- _ => apply Z.ltb_lt in H
         | H : (_ <? _) = false |- _ => apply Z.ltb_ge in H
         | H : (_ =? _) = true |- _ => apply Z.eqb_eq in H
         | H : (_ =? _) = false |- _ => apply Z.eqb_neq in H
         end.

Ltac moves_known :=
  try match goal with
      | E : Part002.currentMoves _ = _ |- _ => rewrite E in *
      end.

Lemma len_nonneg (arr : list string) : 0 <= len arr.
Proof. unfold len. lia. Qed.

Lemma len_nil : len [] = 0.
Proof. reflexivity. Qed.

Lemma mount_tracked : tracked Part002.mount.
Proof. unfold tracked. cbn. repeat split; try lia. Qed.

Lemma boot_in_step : in_step Part002.boot.
Proof. unfold in_step. cbn. repeat split; try lia. Qed.

Lemma handlePieceDrop_tracked (source target : string) (s : Part002.Session) :
  tracked s -> tracked (snd (Part002.handlePieceDrop source target s)).
Proof.
  unfold tracked. intros (Hi & Hl & Hf).
  unfold Part002.handlePieceDrop. handler_cases; cbn; repeat split; auto; try lia.
Qed.

Lemma handlePrevMove_tracked (s : Part002.Session) :
  tracked s -> tracked (Part002.handlePrevMove s).
Proof.
  unfold tracked. intros (Hi & Hl & Hf).
  unfold Part002.handlePrevMove. handler_cases; to_arith; cbn;
    repeat split; auto; try lia.
Qed.

Lemma handleNextMove_tracked (s : Part002.Session) :
  tracked s -> tracked (Part002.handleNextMove s).
Proof.
  unfold tracked. intros (Hi & Hl & Hf).
  unfold Part002.handleNextMove. handler_cases; cbn; repeat split; auto; try lia.
Qed.

Lemma handleResetToLastPosition_tracked (s : Part002.Session) :
  tracked s -> tracked (Part002.handleResetToLastPosition s).
Proof.
  unfold tracked. intros (Hi & Hl & Hf).
  unfold Part002.handleResetToLastPosition. handler_cases; cbn;
    repeat split; auto; try lia.
Qed.

Lemma handleResetBoard_tracked (s : Part002.Session) :
  tracked s -> tracked (Part002.handleResetBoard s).
Proof.
  unfold tracked. intros (Hi & Hl & Hf).
  unfold Part002.handleResetBoard. handler_cases; cbn; repeat split; auto; try lia.
Qed.

Lemma startVariationPractice_tracked (openingId variationName : string)
    (s : Part002.Session) :
  tracked (Part002.startVariationPractice openingId variationName s).
Proof. unfold tracked. cbn. repeat split; try lia. Qed.

Lemma settled_tracked (r : FetchResult) (s : Part002.Session) :
  tracked s -> tracked (Part002.startVariationPractice_settled r s).
Proof. unfold tracked. destruct r; cbn; auto. Qed.

(** Every event keeps [tracked]. *)
Lemma step_tracked (e : Part002.Event) (w w' : Part002.World) :
  tracked (Part002.session w) -> Part002.step e w = Some w' ->
  tracked (Part002.session w').
Proof.
  intros Ht Hstep. destruct e; unfold Part002.step in Hstep; cbv zeta in Hstep.
  - injection Hstep as <-. now apply handlePieceDrop_tracked.
  - injection Hstep as <-. apply startVariationPractice_tracked.
  - destruct (Nat.ltb _ _); [|discriminate].
    injection Hstep as <-. now apply settled_tracked.
  - injection Hstep as <-. now apply handlePrevMove_tracked.
  - injection Hstep as <-. now apply handleNextMove_tracked.
  - injection Hstep as <-. now apply handleResetToLastPosition_tracked.
  - injection Hstep as <-. now apply handleResetBoard_tracked.
  - injection Hstep as <-. unfold tracked. cbn. repeat split; try lia.
  - injection Hstep as <-. exact Ht.
  - destruct (Part002.randomFetches w); [discriminate|].
    injection Hstep as <-. destruct r; cbn [Part002.session];
      try exact Ht. apply startVariationPractice_tracked.
Qed.

Lemma run_tracked (es : list Part002.Event) (w w' : Part002.World) :
  tracked (Part002.session w) -> Part002.run es w = Some w' ->
  tracked (Part002.session w').
Proof.
  revert w. induction es as [|e es IH]; intros w Ht Hrun; simpl in Hrun.
  - now injection Hrun as <-.
  - destruct (Part002.step e w) as [w1|] eqn:Hstep; [|discriminate].
    apply (IH w1); [exact (step_tracked e w Ht Hstep) | exact Hrun].
Qed.

(** A handler that leaves the move list alone and keeps both indexes
    within it keeps [in_step]. *)
Lemma same_moves_in_step (w : Part002.World) (s' : Part002.Session) :
  in_step w ->
  Part002.currentMoves s' = Part002.currentMoves (Part002.session w) ->
  Part002.currentIndex s' <= len (Part002.currentMoves s') ->
  Part002.lastFenIndex s' <= len (Part002.currentMoves s') ->
  in_step (Part002.mkWorld s' (Part002.movesFetches w) (Part002.randomFetches w)).
Proof.
  unfold in_step. intros (Hi & Hl & Hone & Hempty) Hmoves Hi' Hl'. cbn.
  repeat split; auto. intros Hf. rewrite Hmoves. auto.
Qed.

Lemma handlePieceDrop_bounds (source target : string) (s : Part002.Session) :
  let s' := snd (Part002.handlePieceDrop source target s) in
  Part002.currentIndex s <= len (Part002.currentMoves s) ->
  Part002.lastFenIndex s <= len (Part002.currentMoves s) ->
  Part002.currentMoves s' = Part002.currentMoves s /\
  Part002.currentIndex s' <= len (Part002.currentMoves s') /\
  Part002.lastFenIndex s' <= len (Part002.currentMoves s').
Proof.
  cbv zeta. intros Hi Hl. unfold Part002.handlePieceDrop.
  handler_cases; to_arith; cbn; moves_known; repeat split; auto; lia.
Qed.

Lemma handlePrevMove_bounds (s : Part002.Session) :
  let s' := Part002.handlePrevMove s in
  Part002.currentIndex s <= len (Part002.currentMoves s) ->
  Part002.lastFenIndex s <= len (Part002.currentMoves s) ->
  Part002.currentMoves s' = Part002.currentMoves s /\
  Part002.currentIndex s' <= len (Part002.currentMoves s') /\
  Part002.lastFenIndex s' <= len (Part002.currentMoves s').
Proof.
  cbv zeta. intros Hi Hl. unfold Part002.handlePrevMove.
  handler_cases; to_arith; cbn; moves_known; repeat split; auto; lia.
Qed.

Lemma handleNextMove_bounds (s : Part002.Session) :
  let s' := Part002.handleNextMove s in
  Part002.currentIndex s <= len (Part002.currentMoves s) ->
  Part002.lastFenIndex s <= len (Part002.currentMoves s) ->
  Part002.currentMoves s' = Part002.currentMoves s /\
  Part002.currentIndex s' <= len (Part002.currentMoves s') /\
  Part002.lastFenIndex s' <= len (Part002.currentMoves s').
Proof.
  cbv zeta. intros Hi Hl. unfold Part002.handleNextMove.
  handler_cases; to_arith; cbn; moves_known; repeat split; auto; lia.
Qed.

Lemma handleResetToLastPosition_bounds (s : Part002.Session) :
  let s' := Part002.handleResetToLastPosition s in
  Part002.currentIndex s <= len (Part002.currentMoves s) ->
  Part002.lastFenIndex s <= len (Part002.currentMoves s) ->
  Part002.currentMoves s' = Part002.currentMoves s /\
  Part002.currentIndex s' <= len (Part002.currentMoves s') /\
  Part002.lastFenIndex s' <= len (Part002.currentMoves s').
Proof.
  cbv zeta. intros Hi Hl. unfold Part002.handleResetToLastPosition.
  pose proof (len_nonneg (Part002.currentMoves s)).
  handler_cases; to_arith; cbn; moves_known; repeat split; auto; lia.
Qed.

Lemma handleResetBoard_bounds (s : Part002.Session) :
  let s' := Part002.handleResetBoard s in
  Part002.currentIndex s <= len (Part002.currentMoves s) ->
  Part002.lastFenIndex s <= len (Part002.currentMoves s) ->
  Part002.currentMoves s' = Part002.currentMoves s /\
  Part002.currentIndex s' <= len (Part002.currentMoves s') /\
  Part002.lastFenIndex s' <= len (Part002.currentMoves s').
Proof.
  cbv zeta. intros Hi Hl. unfold Part002.handleResetBoard.
  pose proof (len_nonneg (Part002.currentMoves s)).
  handler_cases; to_arith; cbn; moves_known; repeat split; auto; lia.
Qed.

Lemma started_in_step (w : Part002.World) (s0 : Part002.Session)
    (openingId variationName : string) (n : nat) :
  Part002.movesFetches w = [] ->
  in_step (Part002.mkWorld
             (Part002.startVariationPractice openingId variationName s0)
             (Part002.movesFetches w ++ [(openingId, variationName)]) n).
Proof.
  intros ->. unfold in_step. cbn. repeat split; lia.
Qed.

(** An event that does not issue a second fetch next to one in flight
    keeps [in_step]. *)
Lemma step_in_step (e : Part002.Event) (w w' : Part002.World) :
  tracked (Part002.session w) -> in_step w ->
  (Part002.issues_fetch e = true -> Part002.movesFetches w = []) ->
  Part002.step e w = Some w' ->
  in_step w'.
Proof.
  intros Ht Hin Hone Hstep.
  pose proof Hin as (Hi & Hl & Hlen & Hempty).
  destruct e; unfold Part002.step in Hstep; cbv zeta in Hstep.
  - injection Hstep as <-.
    destruct (handlePieceDrop_bounds source target (Part002.session w) Hi Hl)
      as (Hm & Hi' & Hl').
    now apply same_moves_in_step.
  - injection Hstep as <-. apply started_in_step. now apply Hone.
  - destruct (Nat.ltb k _) eqn:Hk; [|discriminate].
    injection Hstep as <-. apply Nat.ltb_lt in Hk.
    destruct (Part002.movesFetches w) as [|x [|y l]] eqn:Hf;
      simpl in Hk, Hlen; try lia.
    assert (k = 0%nat) as -> by lia.
    assert (Hnil : Part002.currentMoves (Part002.session w) = [])
      by (apply Hempty; discriminate).
    destruct Ht as (Hi0 & Hl0 & _).
    rewrite Hnil, len_nil in Hi, Hl.
    unfold in_step. cbn [Part002.session Part002.movesFetches].
    rewrite settled_moves, Hnil.
    pose proof (len_nonneg (payload_or r [])).
    destruct r; cbn [payload_or] in *; cbn; repeat split; auto; try lia;
      try congruence.
  - injection Hstep as <-.
    destruct (handlePrevMove_bounds (Part002.session w) Hi Hl) as (Hm & Hi' & Hl').
    now apply same_moves_in_step.
  - injection Hstep as <-.
    destruct (handleNextMove_bounds (Part002.session w) Hi Hl) as (Hm & Hi' & Hl').
    now apply same_moves_in_step.
  - injection Hstep as <-.
    destruct (handleResetToLastPosition_bounds (Part002.session w) Hi Hl)
      as (Hm & Hi' & Hl').
    now apply same_moves_in_step.
  - injection Hstep as <-.
    destruct (handleResetBoard_bounds (Part002.session w) Hi Hl) as (Hm & Hi' & Hl').
    now apply same_moves_in_step.
  - injection Hstep as <-. unfold in_step. cbn. repeat split; auto; lia.
  - injection Hstep as <-. exact Hin.
  - destruct (Part002.randomFetches w); [discriminate|].
    injection Hstep as <-. destruct r; try exact Hin.
    apply started_in_step. now apply Hone.
Qed.

Lemma run_in_step (es : list Part002.Event) (w w' : Part002.World) :
  tracked (Part002.session w) -> in_step w ->
  Part002.one_at_a_time es w = true ->
  Part002.run es w = Some w' ->
  in_step w'.
Proof.
  revert w. induction es as [|e es IH]; intros w Ht Hin Hone Hrun;
    simpl in Hrun, Hone.
  - now injection Hrun as <-.
  - destruct (Part002.step e w) as [w1|] eqn:Hstep; [|discriminate].
    apply andb_true_iff in Hone as [Hno Hrest].
    apply (IH w1); auto.
    + exact (step_tracked e w Ht Hstep).
    + apply (step_in_step e Ht Hin); [|exact Hstep].
      intros Hissue. rewrite Hissue in Hno. simpl in Hno.
      apply negb_true_iff, negb_false_iff, Nat.eqb_eq in Hno.
      now destruct (Part002.movesFetches w).
Qed.

(** C9, as the code has it.  From the mounted component, after any
    sequence of events, the index is not negative; and when no move list
    is fetched while another fetch is in flight, the index is at most the
    number of moves loaded. *)
Theorem currentIndex_bounds (es : list Part002.Event) (w : Part002.World) :
  Part002.run es Part002.boot = Some w ->
  0 <= Part002.currentIndex (Part002.session w) /\
  (Part002.one_at_a_time es Part002.boot = true ->
   Part002.currentIndex (Part002.session w)
     <= len (Part002.currentMoves (Part002.session w))).
Proof.
  intros Hrun. split.
  - apply (run_tracked es Part002.boot mount_tracked Hrun).
  - intros Hone.
    apply (run_in_step es (w := Part002.boot) mount_tracked boot_in_step Hone Hrun).
Qed.

End Bounds.

(** ** The handlers at work on the small engine *)

Section Worked.
#[local] Existing Instance Mini.chess.

Example toLowerCase_Nf3 : toLowerCase "Nf3" = "nf3".
Proof. reflexivity. Qed.

(** [part_002] with [e4; e5; Nf3] loaded: e2-e4 is accepted and counted. *)
Example right_drop_advances :
  let s := Part002.mount |> Part002.startVariationPractice "1" "Main Line"
             |> Part002.startVariationPractice_settled (MovesArray Play.mainLine) in
  let r := Part002.handlePieceDrop "e2" "e4" s in
  fst r = Drop /\ Part002.currentIndex (snd r) = 1 /\
  Part002.wrongMove (snd r) = false /\
  Part002.lastFen (snd r) = Mini.fen_e4 /\ Part002.lastFenIndex (snd r) = 1.
Proof. vm_compute. repeat split. Qed.

(** [part_002]: d2-d4 instead is snapped back and the game is where it
    was. *)
Example wrong_drop_contained :
  Part002.currentIndex Play.afterWrongDrop002 = 0 /\
  Part002.wrongMove Play.afterWrongDrop002 = true /\
  fen (Part002.game Play.afterWrongDrop002) = Mini.fen_start.
Proof. vm_compute. repeat split. Qed.

(** [part_002]: e2-e5 is no move; nothing but the feedback changes. *)
Example illegal_drop_isolated :
  let s := Part002.mount |> Part002.startVariationPractice "1" "Main Line"
             |> Part002.startVariationPractice_settled (MovesArray Play.mainLine) in
  Part002.handlePieceDrop "e2" "e5" s
  = (Snapback, Part002.setFeedback "Illegal move!" s).
Proof. vm_compute. reflexivity. Qed.


(** The same in [part_003]: picked from the mounted component, the
    variation attaches a listener that closes over no move. *)
Lemma part003_failed_load_accepts_legal_drop :
  Part003.run Play.failedLoadEvents003 Part003.boot
  = Some (Part003.mkWorld Play.failedLoad003 [] [] 0) /\
  Part003.currentVariationName Play.failedLoad003 = Some "Main Line" /\
  Part003.currentMoves Play.failedLoad003 = [] /\
  fst (Part003.handlePieceDrop [] "e2" "e4" Play.failedLoad003) = Drop.
Proof. split; [vm_compute; reflexivity|]. repeat split. Qed.

(** [part_003] when the listener stays: the main line is loaded, Next and
    Prev are pressed, the same variation is picked again at index 0 and
    its fetch fails.  No move is loaded, yet the listener still closes
    over the main line: d2-d4 is snapped back as a wrong move, and e2-e4
    is counted. *)
Lemma part003_failed_reload_keeps_listener :
  exists w : Part003.World,
    Part003.run Play.failedReloadEvents003 Part003.boot = Some w /\
    Part003.currentMoves (Part003.session w) = [] /\
    Part003.heard w = Play.mainLine /\
    fst (Part003.handlePieceDrop (Part003.heard w) "d2" "d4" (Part003.session w))
    = Snapback /\
    Part003.wrongMove
      (snd (Part003.handlePieceDrop (Part003.heard w) "d2" "d4" (Part003.session w)))
    = true /\
    fst (Part003.handlePieceDrop (Part003.heard w) "e2" "e4" (Part003.session w))
    = Drop /\
    Part003.currentIndex
      (snd (Part003.handlePieceDrop (Part003.heard w) "e2" "e4" (Part003.session w)))
    = 1.
Proof. eexists. split; [vm_compute; reflexivity|]. vm_compute. repeat split. Qed.

(** [part_003] right after a load: the fetch settling changes no
    dependency of the effect, so the listener still closes over no move
    and e2-e4, d2-d4 alike are taken as free play; the index stays 0. *)
Lemma part003_listener_misses_loaded_moves :
  exists w : Part003.World,
    Part003.run Play.loadEvents003 Part003.boot = Some w /\
    Part003.currentMoves (Part003.session w) = Play.mainLine /\
    Part003.heard w = [] /\
    fst (Part003.handlePieceDrop (Part003.heard w) "d2" "d4" (Part003.session w))
    = Drop /\
    Part003.currentIndex
      (snd (Part003.handlePieceDrop (Part003.heard w) "e2" "e4" (Part003.session w)))
    = 0.
Proof. eexists. split; [vm_compute; reflexivity|]. vm_compute. repeat split. Qed.

(** C2 as stated fails: A is picked, then B; B's fetch settles with B's
    moves, then A's with A's.  The session carries B's id and name with
    A's moves. *)
Lemma stale_fetch_overwrites_moves :
  exists w : Part002.World,
    Part002.run Play.staleRace Part002.boot = Some w /\
    Part002.currentOpeningId (Part002.session w) = Some "2" /\
    Part002.currentVariationName (Part002.session w) = Some "B" /\
    Part002.currentMoves (Part002.session w) = ["e4"; "e5"] /\
    Part002.currentMoves (Part002.session w) <> ["d4"].
Proof.
  eexists. split; [reflexivity|]. repeat split. discriminate.
Qed.

(** C3 fails in [part_003].  The main line is loaded and Next has played
    e4, which changed the index: the listener closes over the main line.
    Black's d7-d5 is legal and is not the expected e5.  The drop is
    snapped back, the flag is raised and the index stays, but the game
    keeps the move: its position is the one after d5, not the one before
    the attempt. *)
Theorem part003_wrong_drop_not_reverted :
  let s := Play.afterNext003 in
  let r := Part003.handlePieceDrop Play.mainLine "d7" "d5" s in
  Part003.run Play.loadAndNextEvents003 Part003.boot
  = Some (Part003.mkWorld s Play.mainLine [] 0) /\
  Part003.run (Play.loadAndNextEvents003 ++ [Part002.DropPiece "d7" "d5"])%list
    Part003.boot
  = Some (Part003.mkWorld (snd r) Play.mainLine [] 0) /\
  Part003.currentMoves s = ["e4"; "e5"; "Nf3"] /\
  Part003.currentIndex s = 1 /\
  (exists g, move (Part003.game s) "d7" "d5" = Some ("d5", g)) /\
  fst r = Snapback /\
  Part003.wrongMove (snd r) = true /\
  Part003.currentIndex (snd r) = 1 /\
  fen (Part003.game s) = Mini.fen_e4 /\
  fen (Part003.game (snd r)) = Mini.fen_e4_d5 /\
  fen (Part003.game (snd r)) <> fen (Part003.game s).
Proof.
  cbv zeta. do 2 (split; [vm_compute; reflexivity|]).
  repeat split; [eexists; reflexivity | discriminate].
Qed.

(** C4 fails in [part_003].  The one-move variation is complete, stepped
    to its end with Next, so the listener closes over its one move;
    Black's e7-e5 is legal.  The drop is snapped back and the index
    stays, but the game keeps the move. *)
Theorem part003_drop_after_completion_not_reverted :
  let s := Play.completed003 in
  let r := Part003.handlePieceDrop ["e4"] "e7" "e5" s in
  Part003.run Play.completeEvents003 Part003.boot
  = Some (Part003.mkWorld s ["e4"] [] 0) /\
  Part003.run (Play.completeEvents003 ++ [Part002.DropPiece "e7" "e5"])%list
    Part003.boot
  = Some (Part003.mkWorld (snd r) ["e4"] [] 0) /\
  Part003.currentMoves s = ["e4"] /\
  Part003.currentIndex s = len (Part003.currentMoves s) /\
  (exists g, move (Part003.game s) "e7" "e5" = Some ("e5", g)) /\
  fst r = Snapback /\
  Part003.currentIndex (snd r) = Part003.currentIndex s /\
  fen (Part003.game s) = Mini.fen_e4 /\
  fen (Part003.game (snd r)) = Mini.fen_e4_e5 /\
  fen (Part003.game (snd r)) <> fen (Part003.game s).
Proof.
  cbv zeta. do 2 (split; [vm_compute; reflexivity|]).
  repeat split; [eexists; reflexivity | discriminate].
Qed.


(** C6 fails in [part_003].  The stored sequence starts with e5, which is
    no move of White; Next counts it all the same and reports it as
    played. *)
Theorem part003_next_counts_rejected_move :
  let s := Play.corrupted003 in
  let s' := Part003.handleNextMove s in
  at_index (Part003.currentMoves s) (Part003.currentIndex s) = Some "e5" /\
  moveSAN (Part003.game s) "e5" = None /\
  Part003.currentIndex s = 0 /\
  Part003.currentIndex s' = 1 /\
  Part003.game s' = Part003.game s /\
  Part003.feedback s' = "Forward move: e5".
Proof. cbv zeta. repeat split. Qed.

(** C9 as stated fails: A is picked, then B; B's two moves arrive and
    Next is pressed twice; then A's single move arrives.  The index is 2
    and one move is loaded. *)
Lemma stale_fetch_breaks_index_bound :
  exists w : Part002.World,
    Part002.run Play.staleShrink Part002.boot = Some w /\
    Part002.currentIndex (Part002.session w) = 2 /\
    len (Part002.currentMoves (Part002.session w)) = 1 /\
    ~ (0 <= Part002.currentIndex (Part002.session w)
         <= len (Part002.currentMoves (Part002.session w))).
Proof.
  eexists. split; [reflexivity|]. do 2 (split; [reflexivity|]).
  vm_compute. intros [_ Hle]. now apply Hle.
Qed.

End Worked.

Section Reachable.
Context {chess : Chess}.

(** In every session the mounted component can reach with moves loaded,
    a reset to the last position taken at [lastFenIndex = 0] is a reset of
    the board, up to the feedback text. *)
Lemma reachable_reset_to_last_is_reset_board
    (es : list Part002.Event) (w : Part002.World) (text : string) :
  Part002.run es Part002.boot = Some w ->
  Part002.lastFenIndex (Part002.session w) = 0 ->
  Part002.currentMoves (Part002.session w) <> [] ->
  Part002.setFeedback text (Part002.handleResetToLastPosition (Part002.session w)) =
  Part002.setFeedback text (Part002.handleResetBoard (Part002.session w)).
Proof.
  intros Hrun Hzero Hmoves.
  destruct (run_tracked es Part002.boot mount_tracked Hrun) as (_ & _ & Hfen).
  apply handleResetToLastPosition_as_handleResetBoard; auto.
Qed.

End Reachable.

(** ** The theorems at concrete sessions *)

Section Witnesses.
#[local] Existing Instance Mini.chess.



Lemma handleResetToLastPosition_cases_witness :
  (0 < Part002.lastFenIndex Play.afterRightThenWrong002 /\
   Part002.wrongMove Play.afterRightThenWrong002 = true /\
   Part002.currentIndex
     (Part002.handleResetToLastPosition Play.afterRightThenWrong002) = 1 /\
   fen (Part002.game
          (Part002.handleResetToLastPosition Play.afterRightThenWrong002))
   = Mini.fen_e4 /\
   Part002.wrongMove
     (Part002.handleResetToLastPosition Play.afterRightThenWrong002) = false) /\
  (Part002.lastFenIndex Play.afterWrongDrop002 = 0 /\
   Part002.currentIndex
     (Part002.handleResetToLastPosition Play.afterWrongDrop002) = 0 /\
   Part002.game (Part002.handleResetToLastPosition Play.afterWrongDrop002)
   = initial).
Proof.
  split.
  - assert (Hpos : 0 < Part002.lastFenIndex Play.afterRightThenWrong002)
      by reflexivity.
    destruct (proj1 (handleResetToLastPosition_cases Play.afterRightThenWrong002) Hpos)
      as (Hg & _ & Hi & Hw).
    split; [exact Hpos|]. split; [reflexivity|].
    split; [rewrite Hi; reflexivity|].
    split; [rewrite Hg; reflexivity | exact Hw].
  - assert (Hzero : Part002.lastFenIndex Play.afterWrongDrop002 = 0)
      by reflexivity.
    destruct (proj2 (handleResetToLastPosition_cases Play.afterWrongDrop002) Hzero)
      as (Hg & _ & Hi & _).
    split; [exact Hzero|]. split; [exact Hi | exact Hg].
Defined.

Lemma currentIndex_bounds_witness :
  exists w : Part002.World,
    Part002.run Play.lesson Part002.boot = Some w /\
    Part002.one_at_a_time Play.lesson Part002.boot = true /\
    0 <= Part002.currentIndex (Part002.session w)
      <= len (Part002.currentMoves (Part002.session w)).
Proof.
  destruct (Part002.run Play.lesson Part002.boot) as [w|] eqn:Hrun;
    [|discriminate Hrun].
  exists w. split; [reflexivity|].
  assert (Hone : Part002.one_at_a_time Play.lesson Part002.boot = true)
    by reflexivity.
  split; [exact Hone|].
  destruct (currentIndex_bounds Play.lesson Hrun) as [Hlow Hhigh].
  split; [exact Hlow | exact (Hhigh Hone)].
Defined.

Lemma handleResetBoard_keeps_variation_witness :
  Part002.currentMoves Play.afterRightThenWrong002 <> [] /\
  Part002.currentMoves (Part002.handleResetBoard Play.afterRightThenWrong002)
  = Play.mainLine /\
  Part002.currentVariationName
    (Part002.handleResetBoard Play.afterRightThenWrong002) = Some "Main Line" /\
  Part002.currentIndex (Part002.handleResetBoard Play.afterRightThenWrong002) = 0 /\
  Part003.currentMoves Play.afterNext003 <> [] /\
  Part003.currentMoves (Part003.handleResetBoard Play.afterNext003)
  = Play.mainLine.
Proof.
  assert (H2 : Part002.currentMoves Play.afterRightThenWrong002 <> [])
    by discriminate.
  assert (H3 : Part003.currentMoves Play.afterNext003 <> []) by discriminate.
  destruct (proj1 handleResetBoard_keeps_variation _ H2)
    as (_ & Hname & Hmoves & Hidx & _).
  destruct (proj2 handleResetBoard_keeps_variation _ H3) as (_ & _ & Hmoves3 & _).
  split; [exact H2|]. split; [rewrite Hmoves; reflexivity|].
  split; [rewrite Hname; reflexivity|]. split; [exact Hidx|].
  split; [exact H3 | rewrite Hmoves3; reflexivity].
Defined.

(** The wrong-move branch of [part_002] on the board: after e4, the drop
    d7-d5 is undone and the game is back at the position after e4. *)
Lemma handlePieceDrop_wrong_move_position_witness :
  fen (Part002.game Play.afterRightThenWrong002) = Mini.fen_e4 /\
  Part002.currentIndex Play.afterRightThenWrong002 = 1 /\
  Part002.wrongMove Play.afterRightThenWrong002 = true.
Proof.
  unfold Play.afterRightThenWrong002.
  set (s := snd (Part002.handlePieceDrop "e2" "e4" _)).
  assert (Hexp : at_index (Part002.currentMoves s) (Part002.currentIndex s)
                 = Some "e5") by reflexivity.
  assert (Hmove : move (Part002.game s) "d7" "d5"
                  = Some ("d5", Mini.mkGame Mini.fen_e4_d5 [Mini.fen_e4; Mini.fen_start]))
    by reflexivity.
  assert (Hne : toLowerCase "d5" <> toLowerCase "e5") by discriminate.
  split.
  - rewrite (handlePieceDrop_wrong_move_position s "d7" "d5" eq_refl Hexp Hmove Hne).
    reflexivity.
  - destruct (handlePieceDrop_wrong_move s "d7" "d5" Hexp Hmove Hne)
      as (_ & _ & _ & Hw & Hi & _).
    split; [rewrite Hi; reflexivity | exact Hw].
Defined.

End Witnesses.

(** ** More on the drop handler *)

Section MoreDrops.
Context {chess : Chess}.

Lemma toLowerCase_nonempty (s : string) :
  s <> "" -> Part003.truthy (Some (toLowerCase s)) = true.
Proof. destruct s; [congruence | reflexivity]. Qed.

(** X1.  A drop the game rejects is snapped back and changes no cell but
    the feedback in [part_002], and no cell at all in [part_003],
    whatever move list its listener closes over. *)
Theorem illegal_drop_changes_nothing :
  (forall (s : Part002.Session) (source target : string),
      move (Part002.game s) source target = None ->
      exists text : string,
        Part002.handlePieceDrop source target s
        = (Snapback, Part002.setFeedback text s)) /\
  (forall (heard : list string) (s : Part003.Session) (source target : string),
      move (Part003.game s) source target = None ->
      Part003.handlePieceDrop heard source target s = (Snapback, s)).
Proof.
  split.
  - intros s source target Hmove. now apply handlePieceDrop_illegal.
  - intros heard s source target Hmove.
    unfold Part003.handlePieceDrop. rewrite Hmove. now destruct heard.
Qed.

(** X2.  A legal drop whose SAN equals the expected move, letters
    lowered, is accepted: the index grows by one, [lastFen] and the board
    take the new FEN, the flag is cleared and the moves stay; [part_002]
    also sets [lastFenIndex] to the new index.  In [part_003] the
    expected move is the one at the index in the move list the attached
    listener closes over, and it must not be the empty string. *)
Theorem right_drop_is_counted :
  (forall (s : Part002.Session) (source target san expected : string) (g : Game),
      at_index (Part002.currentMoves s) (Part002.currentIndex s) = Some expected ->
      move (Part002.game s) source target = Some (san, g) ->
      toLowerCase san = toLowerCase expected ->
      let r := Part002.handlePieceDrop source target s in
      fst r = Drop /\
      Part002.game (snd r) = g /\
      Part002.currentIndex (snd r) = Part002.currentIndex s + 1 /\
      Part002.lastFen (snd r) = fen g /\
      Part002.lastFenIndex (snd r) = Part002.currentIndex s + 1 /\
      Part002.boardPosition (snd r) = fen g /\
      Part002.wrongMove (snd r) = false /\
      Part002.currentMoves (snd r) = Part002.currentMoves s) /\
  (forall (heard : list string) (s : Part003.Session)
          (source target san expected : string) (g : Game),
      at_index heard (Part003.currentIndex s) = Some expected ->
      expected <> "" ->
      move (Part003.game s) source target = Some (san, g) ->
      toLowerCase san = toLowerCase expected ->
      let r := Part003.handlePieceDrop heard source target s in
      fst r = Drop /\
      Part003.game (snd r) = g /\
      Part003.currentIndex (snd r) = Part003.currentIndex s + 1 /\
      Part003.lastFen (snd r) = fen g /\
      Part003.boardPosition (snd r) = fen g /\
      Part003.wrongMove (snd r) = false /\
      Part003.currentMoves (snd r) = Part003.currentMoves s).
Proof.
  split.
  - intros s source target san expected g Hexp Hmove Heq. cbv zeta.
    destruct (at_index_Some _ _ Hexp) as [Hmoves Hidx].
    unfold Part002.handlePieceDrop.
    destruct (Part002.currentMoves s) as [|m ms] eqn:E; [congruence|].
    replace (len (m :: ms) <=? Part002.currentIndex s) with false
      by (symmetry; apply Z.leb_gt; lia).
    rewrite Hmove, Hexp. cbn [option_map strict_eq].
    rewrite Heq, String.eqb_refl. cbn. rewrite E. repeat split.
  - intros heard s source target san expected g Hexp Hne Hmove Heq. cbv zeta.
    destruct (at_index_Some _ _ Hexp) as [Hmoves Hidx].
    unfold Part003.handlePieceDrop.
    destruct heard as [|m ms]; [congruence|].
    rewrite Hmove, Hexp. cbn [option_map strict_eq].
    rewrite (toLowerCase_nonempty Hne), Heq, String.eqb_refl.
    cbn. repeat split.
Qed.

(** X3.  A drop judged with no move in sight is accepted exactly when the
    game accepts it, and it leaves the index, the flag, [lastFen],
    [lastFenIndex] and the move list as they were.  In [part_002] that
    is when no move is loaded; in [part_003] when the attached listener
    closes over no move, whatever the session has loaded. *)
Theorem freeplay_drop_keeps_progress :
  (forall (s : Part002.Session) (source target : string),
      Part002.currentMoves s = [] ->
      let r := Part002.handlePieceDrop source target s in
      (fst r = Drop <-> move (Part002.game s) source target <> None) /\
      Part002.currentMoves (snd r) = [] /\
      Part002.currentIndex (snd r) = Part002.currentIndex s /\
      Part002.wrongMove (snd r) = Part002.wrongMove s /\
      Part002.lastFen (snd r) = Part002.lastFen s /\
      Part002.lastFenIndex (snd r) = Part002.lastFenIndex s) /\
  (forall (s : Part003.Session) (source target : string),
      let r := Part003.handlePieceDrop [] source target s in
      (fst r = Drop <-> move (Part003.game s) source target <> None) /\
      Part003.currentMoves (snd r) = Part003.currentMoves s /\
      Part003.currentIndex (snd r) = Part003.currentIndex s /\
      Part003.wrongMove (snd r) = Part003.wrongMove s /\
      Part003.lastFen (snd r) = Part003.lastFen s /\
      Part003.feedback (snd r) = Part003.feedback s).
Proof.
  split.
  - intros s source target Hmoves; cbv zeta.
    unfold Part002.handlePieceDrop. rewrite Hmoves.
    destruct (move (Part002.game s) source target) as [[san g]|]; cbn;
      rewrite ?Hmoves; repeat split; try congruence; try discriminate.
  - intros s source target; cbv zeta.
    unfold Part003.handlePieceDrop.
    destruct (move (Part003.game s) source target) as [[san g]|]; cbn;
      repeat split; try congruence; try discriminate.
Qed.

(** X4.  No drop, whatever becomes of it, changes the opening id, the
    variation name, the move list or the selected opening.  Both files,
    and in [part_003] whatever move list the listener closes over. *)
Theorem drop_keeps_variation :
  (forall (s : Part002.Session) (source target : string),
      let s' := snd (Part002.handlePieceDrop source target s) in
      Part002.currentOpeningId s' = Part002.currentOpeningId s /\
      Part002.currentVariationName s' = Part002.currentVariationName s /\
      Part002.currentMoves s' = Part002.currentMoves s /\
      Part002.selectedOpening s' = Part002.selectedOpening s) /\
  (forall (heard : list string) (s : Part003.Session) (source target : string),
      let s' := snd (Part003.handlePieceDrop heard source target s) in
      Part003.currentOpeningId s' = Part003.currentOpeningId s /\
      Part003.currentVariationName s' = Part003.currentVariationName s /\
      Part003.currentMoves s' = Part003.currentMoves s /\
      Part003.selectedOpening s' = Part003.selectedOpening s).
Proof.
  split.
  - intros s source target; cbv zeta.
    unfold Part002.handlePieceDrop.
    destruct (Part002.currentMoves s) eqn:E;
      [|destruct (_ <=? _)];
      destruct (move (Part002.game s) source target) as [[san g]|];
      try destruct (strict_eq _ _); cbn; rewrite ?E; repeat split.
  - intros heard s source target; cbv zeta.
    unfold Part003.handlePieceDrop.
    destruct heard;
      destruct (move (Part003.game s) source target) as [[san g]|];
      try destruct (_ && _); cbn; repeat split.
Qed.

(** X5.  [part_002]: after a right drop and then a wrong one, the Reset
    to Last button is shown, and pressing it loads into the game the FEN
    printed after the right drop, puts the index back right after it and
    clears the flag. *)
Theorem reset_after_wrong_drop_restores_right_one
    (s : Part002.Session) (source1 target1 san1 expected1 : string) (g1 : Game)
    (source2 target2 san2 expected2 : string) (g2 : Game) :
  at_index (Part002.currentMoves s) (Part002.currentIndex s) = Some expected1 ->
  move (Part002.game s) source1 target1 = Some (san1, g1) ->
  toLowerCase san1 = toLowerCase expected1 ->
  at_index (Part002.currentMoves s) (Part002.currentIndex s + 1) = Some expected2 ->
  move g1 source2 target2 = Some (san2, g2) ->
  toLowerCase san2 <> toLowerCase expected2 ->
  let s1 := snd (Part002.handlePieceDrop source1 target1 s) in
  let s2 := snd (Part002.handlePieceDrop source2 target2 s1) in
  let s3 := Part002.handleResetToLastPosition s2 in
  Part002.resetToLastShown s2 = true /\
  Part002.game s3 = load (load g2 (fen g1)) (fen g1) /\
  Part002.boardPosition s3 = fen g1 /\
  Part002.currentIndex s3 = Part002.currentIndex s + 1 /\
  Part002.wrongMove s3 = false /\
  Part002.currentMoves s3 = Part002.currentMoves s.
Proof.
  intros Hexp1 Hmove1 Heq1 Hexp2 Hmove2 Hne2. cbv zeta.
  destruct (at_index_Some _ _ Hexp1) as [Hmoves Hidx].
  destruct (handlePieceDrop_correct s source1 target1 Hexp1 Hmove1 Heq1)
    as (_ & Hg1 & Hi1 & Hf1 & Hl1 & _).
  assert (Hm1 : Part002.currentMoves (snd (Part002.handlePieceDrop source1 target1 s))
                = Part002.currentMoves s).
  { clear -Hexp1 Hmove1 Heq1 Hmoves Hidx. unfold Part002.handlePieceDrop.
    destruct (Part002.currentMoves s) as [|m ms] eqn:E; [congruence|].
    replace (len (m :: ms) <=? Part002.currentIndex s) with false
      by (symmetry; apply Z.leb_gt; lia).
    rewrite Hmove1, Hexp1. cbn [option_map strict_eq].
    rewrite Heq1, String.eqb_refl. cbn. now rewrite E. }
  set (s1 := snd (Part002.handlePieceDrop source1 target1 s)) in *.
  assert (Hexp2' : at_index (Part002.currentMoves s1) (Part002.currentIndex s1)
                   = Some expected2) by (now rewrite Hm1, Hi1).
  assert (Hmove2' : move (Part002.game s1) source2 target2 = Some (san2, g2))
    by (now rewrite Hg1).
  destruct (handlePieceDrop_wrong_move s1 source2 target2 Hexp2' Hmove2' Hne2)
    as (_ & Hg2 & _ & Hw2 & Hi2 & Hm2 & Hf2 & Hl2 & _).
  set (s2 := snd (Part002.handlePieceDrop source2 target2 s1)) in *.
  assert (Hpos : 0 < Part002.lastFenIndex s2) by (rewrite Hl2, Hl1; lia).
  assert (Hlen : 0 < len (Part002.currentMoves s2)) by (rewrite Hm2, Hm1; lia).
  split.
  - unfold Part002.resetToLastShown. rewrite Hw2.
    apply Z.ltb_lt in Hpos, Hlen. now rewrite Hpos, Hlen.
  - unfold Part002.handleResetToLastPosition.
    replace (Part002.lastFenIndex s2 =? 0) with false
      by (symmetry; apply Z.eqb_neq; lia).
    cbn. rewrite Hg2, Hf2, Hf1, Hg1, Hl2, Hl1, Hm2, Hm1. repeat split.
Qed.

End MoreDrops.

(** ** More on Prev and Next *)

Section MoreStepping.
Context {chess : Chess}.

Lemma at_index_skipn (arr : list string) (i : Z) (m : string) (rest : list string) :
  0 <= i -> skipn (Z.to_nat i) arr = m :: rest -> at_index arr i = Some m.
Proof.
  intros Hi Hskip. unfold at_index.
  replace (i <? 0) with false by (symmetry; apply Z.ltb_ge; lia).
  generalize dependent arr. induction (Z.to_nat i) as [|n IH]; intros arr Hskip.
  - simpl in Hskip. now subst.
  - destruct arr as [|a arr]; [discriminate|]. simpl in *. now apply IH.
Qed.

Lemma skipn_next (arr : list string) (n : nat) (m : string) (rest : list string) :
  skipn n arr = m :: rest -> skipn (S n) arr = rest.
Proof.
  revert arr. induction n as [|n IH]; intros arr Hskip.
  - simpl in Hskip. now subst.
  - destruct arr as [|a arr]; [discriminate|]. simpl in *. now apply IH.
Qed.

(** The session [handleNextMove] of [part_002] returns when the expected
    move is applied. *)
Lemma handleNextMove_step (s : Part002.Session) (m san : string) (g : Game) :
  at_index (Part002.currentMoves s) (Part002.currentIndex s) = Some m ->
  moveSAN (Part002.game s) m = Some (san, g) ->
  Part002.handleNextMove s =
  (s |> Part002.setGame g |> Part002.setBoardPosition (fen g)
     |> Part002.setCurrentIndex (Part002.currentIndex s + 1)
     |> Part002.setFeedback ("Forward move: " ++ m)).
Proof.
  intros Hexp Hmove. destruct (at_index_Some _ _ Hexp) as [Hmoves Hidx].
  unfold Part002.handleNextMove.
  destruct (Part002.currentMoves s) as [|x xs] eqn:E; [congruence|].
  replace (len (x :: xs) <=? Part002.currentIndex s) with false
    by (symmetry; apply Z.leb_gt; lia).
  now rewrite Hexp, Hmove.
Qed.

(** The session [handlePrevMove] of [part_002] returns past its guards. *)
Lemma handlePrevMove_step (s : Part002.Session) :
  Part002.currentMoves s <> [] -> 0 < Part002.currentIndex s ->
  Part002.handlePrevMove s =
  (s |> Part002.setGame (undo (Part002.game s))
     |> Part002.setBoardPosition (fen (undo (Part002.game s)))
     |> Part002.setCurrentIndex (Part002.currentIndex s - 1)
     |> Part002.setFeedback "Stepped back one move.").
Proof.
  intros Hmoves Hidx. unfold Part002.handlePrevMove.
  destruct (Part002.currentMoves s) as [|x xs]; [congruence|].
  replace (Part002.currentIndex s <=? 0) with false
    by (symmetry; apply Z.leb_gt; lia).
  reflexivity.
Qed.

(** X6.  [part_002]: when the game accepts, one after the other, the
    moves that follow the index, as many presses of Next walk through
    them: the index grows by their number and the game is the one their
    replay gives, while the move list, [lastFen], [lastFenIndex] and the
    wrong-move flag stay as they were. *)
Theorem next_presses_walk_the_line (line : list string) :
  forall (s : Part002.Session) (rest : list string) (g : Game),
    0 <= Part002.currentIndex s ->
    skipn (Z.to_nat (Part002.currentIndex s)) (Part002.currentMoves s)
    = (line ++ rest)%list ->
    replay (Part002.game s) line = Some g ->
    let s' := Nat.iter (List.length line) Part002.handleNextMove s in
    Part002.currentIndex s' = Part002.currentIndex s + len line /\
    Part002.game s' = g /\
    Part002.currentMoves s' = Part002.currentMoves s /\
    Part002.lastFen s' = Part002.lastFen s /\
    Part002.lastFenIndex s' = Part002.lastFenIndex s /\
    Part002.wrongMove s' = Part002.wrongMove s.
Proof.
  induction line as [|m line IH]; intros s rest g Hidx Hskip Hplay; cbv zeta.
  - simpl in Hplay. injection Hplay as <-. unfold len. simpl.
    repeat split. lia.
  - simpl in Hplay, Hskip.
    destruct (moveSAN (Part002.game s) m) as [[san g1]|] eqn:Hmove;
      [|discriminate].
    pose proof (at_index_skipn _ Hidx Hskip) as Hexp.
    cbn [List.length]. rewrite Nat.iter_succ_r.
    rewrite (handleNextMove_step s Hexp Hmove).
    set (s1 := Part002.setFeedback _ _).
    assert (Hskip1 : skipn (Z.to_nat (Part002.currentIndex s1))
                       (Part002.currentMoves s1) = (line ++ rest)%list).
    { unfold s1. cbn.
      replace (Z.to_nat (Part002.currentIndex s + 1))
        with (S (Z.to_nat (Part002.currentIndex s))) by lia.
      exact (skipn_next _ _ Hskip). }
    assert (Hidx1 : 0 <= Part002.currentIndex s1) by (unfold s1; cbn; lia).
    destruct (IH s1 rest g Hidx1 Hskip1 Hplay) as (Hi & Hg & Hm & Hf & Hl & Hw).
    rewrite Hi, Hg, Hm, Hf, Hl, Hw. unfold s1, len. cbn.
    repeat split. lia.
Qed.

(** X7.  [part_002], with a game whose [undo] takes back the move just
    made: as many presses of Prev after the presses of Next of X6 give
    back the session before them, up to the feedback text and the
    position string on the board. *)
Theorem prev_presses_undo_next_presses (line : list string) :
  (forall (g g' : Game) (m san : string),
      moveSAN g m = Some (san, g') -> undo g' = g) ->
  forall (s : Part002.Session) (rest : list string) (g : Game),
    0 <= Part002.currentIndex s ->
    skipn (Z.to_nat (Part002.currentIndex s)) (Part002.currentMoves s)
    = (line ++ rest)%list ->
    replay (Part002.game s) line = Some g ->
    same_progress
      (Nat.iter (List.length line) Part002.handlePrevMove
         (Nat.iter (List.length line) Part002.handleNextMove s))
      s.
Proof.
  intros Hundo.
  induction line as [|m line IH]; intros s rest g Hidx Hskip Hplay.
  - simpl. unfold same_progress. repeat split.
  - simpl in Hplay, Hskip.
    destruct (moveSAN (Part002.game s) m) as [[san g1]|] eqn:Hmove;
      [|discriminate].
    pose proof (at_index_skipn _ Hidx Hskip) as Hexp.
    destruct (at_index_Some _ _ Hexp) as [Hmoves _].
    cbn [List.length].
    rewrite Nat.iter_succ_r with (f := Part002.handleNextMove).
    rewrite Nat.iter_succ.
    rewrite (handleNextMove_step s Hexp Hmove).
    set (s1 := Part002.setFeedback _ _).
    assert (Hskip1 : skipn (Z.to_nat (Part002.currentIndex s1))
                       (Part002.currentMoves s1) = (line ++ rest)%list).
    { unfold s1. cbn.
      replace (Z.to_nat (Part002.currentIndex s + 1))
        with (S (Z.to_nat (Part002.currentIndex s))) by lia.
      exact (skipn_next _ _ Hskip). }
    assert (Hidx1 : 0 <= Part002.currentIndex s1) by (unfold s1; cbn; lia).
    specialize (IH s1 rest g Hidx1 Hskip1 Hplay).
    set (t := Nat.iter (List.length line) Part002.handlePrevMove _) in *.
    destruct IH as (Hg & Ho & Hn & Hm & Hi & Hw & Hf & Hl & Hs).
    unfold s1 in Hg, Ho, Hn, Hm, Hi, Hw, Hf, Hl, Hs. cbn in Hg, Ho, Hn, Hm, Hi, Hw, Hf, Hl, Hs.
    rewrite handlePrevMove_step by (rewrite ?Hm, ?Hi; auto; lia).
    unfold same_progress. cbn.
    rewrite Hg, (Hundo _ _ _ _ Hmove), Hi.
    repeat split; auto. lia.
Qed.

(** X8.  At the ends nothing but the feedback changes.  [part_002]: Next
    with no move loaded or with the index at the number of moves, Prev
    with no move loaded or with the index at 0.  [part_003]: the same,
    and with no move loaded both return without setting anything. *)
Theorem stepping_at_the_ends :
  (forall s : Part002.Session,
      Part002.currentMoves s = [] \/
      len (Part002.currentMoves s) <= Part002.currentIndex s ->
      exists text, Part002.handleNextMove s = Part002.setFeedback text s) /\
  (forall s : Part002.Session,
      Part002.currentMoves s = [] \/ Part002.currentIndex s <= 0 ->
      exists text, Part002.handlePrevMove s = Part002.setFeedback text s) /\
  (forall s : Part003.Session,
      Part003.currentMoves s = [] ->
      Part003.handleNextMove s = s /\ Part003.handlePrevMove s = s) /\
  (forall s : Part003.Session,
      Part003.currentMoves s <> [] ->
      (len (Part003.currentMoves s) <= Part003.currentIndex s ->
       Part003.handleNextMove s = Part003.setFeedback "End of variation!" s) /\
      (Part003.currentIndex s <= 0 ->
       Part003.handlePrevMove s = Part003.setFeedback "Already at the start!" s)).
Proof.
  repeat split.
  - intros s [Hnone | Hend]; unfold Part002.handleNextMove.
    + rewrite Hnone. eauto.
    + destruct (Part002.currentMoves s) as [|x xs]; [eauto|].
      replace (len (x :: xs) <=? Part002.currentIndex s) with true
        by (symmetry; apply Z.leb_le; lia).
      eauto.
  - intros s [Hnone | Hstart]; unfold Part002.handlePrevMove.
    + rewrite Hnone. eauto.
    + destruct (Part002.currentMoves s) as [|x xs]; [eauto|].
      replace (Part002.currentIndex s <=? 0) with true
        by (symmetry; apply Z.leb_le; lia).
      eauto.
  - unfold Part003.handleNextMove. now rewrite H.
  - unfold Part003.handlePrevMove. now rewrite H.
  - intros Hend. unfold Part003.handleNextMove.
    destruct (Part003.currentMoves s) as [|x xs]; [congruence|].
    replace (Part003.currentIndex s <? len (x :: xs)) with false
      by (symmetry; apply Z.ltb_ge; lia).
    reflexivity.
  - intros Hstart. unfold Part003.handlePrevMove.
    destruct (Part003.currentMoves s) as [|x xs]; [congruence|].
    replace (Part003.currentIndex s <=? 0) with true
      by (symmetry; apply Z.leb_le; lia).
    reflexivity.
Qed.

End MoreStepping.

(** ** Loading, picking at random, the sidebar *)

Section MoreLoads.
Context {chess : Chess}.

(** X9.  A load that succeeds overwrites every cell of the session but
    the selected opening: whatever was going on before, the session is
    the one with the reset game, the id and name just picked, the fetched
    moves, index 0 and no flag.  Both files. *)
Theorem load_overwrites_session :
  (forall (s : Part002.Session) (openingId variationName : string)
          (movesData : list string),
      Part002.startVariationPractice_settled (MovesArray movesData)
        (Part002.startVariationPractice openingId variationName s)
      = Part002.mkSession initial (Some openingId) (Some variationName)
          movesData 0 "Variation loaded. Make the first move!" false
          "start" "start" 0 (Part002.selectedOpening s)) /\
  (forall (s : Part003.Session) (openingId variationName : string)
          (movesData : list string),
      Part003.startVariationPractice_settled (MovesArray movesData)
        (Part003.startVariationPractice openingId variationName s)
      = Part003.mkSession initial (Some openingId) (Some variationName)
          movesData 0 "Variation loaded. Make the first move!" false
          "start" "start" (Part003.selectedOpening s)).
Proof. split; reflexivity. Qed.

(** X10.  Entering free play does not call off a fetch in flight.  When
    it settles with moves after [enterFreeplayMode], the id and the name
    stay unset (the title says free play) and the moves are loaded all
    the same.  In [part_002] a legal drop that is not the first of them
    is then snapped back as a wrong move.  In [part_003] entering free
    play attached a listener that closes over no move and the fetch
    settling does not attach another, so drops are still taken as free
    play; the loaded moves reach the listener with the first press of
    Next. *)
Theorem fetch_settling_after_freeplay :
  (forall (s : Part002.Session) (openingId variationName : string)
          (movesData : list string),
      let s' := s |> Part002.startVariationPractice openingId variationName
                  |> Part002.enterFreeplayMode
                  |> Part002.startVariationPractice_settled (MovesArray movesData) in
      Part002.currentOpeningId s' = None /\
      Part002.currentVariationName s' = None /\
      Part002.mode s' = Part002.FreePlay /\
      Part002.currentMoves s' = movesData /\
      forall (source target san expected : string) (g : Game),
        at_index movesData 0 = Some expected ->
        move initial source target = Some (san, g) ->
        toLowerCase san <> toLowerCase expected ->
        fst (Part002.handlePieceDrop source target s') = Snapback /\
        Part002.wrongMove (snd (Part002.handlePieceDrop source target s')) = true) /\
  (forall (s : Part003.Session) (heard0 : list string)
          (openingId variationName : string) (movesData : list string),
      let s1 := Part003.startVariationPractice openingId variationName s in
      let s2 := Part003.enterFreeplayMode s1 in
      let s' := Part003.startVariationPractice_settled (MovesArray movesData) s2 in
      let heard :=
        Part003.attach s2 s' (Part003.attach s1 s2 (Part003.attach s s1 heard0)) in
      Part003.currentOpeningId s' = None /\
      Part003.currentVariationName s' = None /\
      Part003.currentMoves s' = movesData /\
      heard = [] /\
      (forall source target : string,
          Part003.handlePieceDrop heard source target s' =
          match move initial source target with
          | None => (Snapback, s')
          | Some (_, g) =>
              (Drop, s' |> Part003.setGame g |> Part003.setBoardPosition (fen g))
          end) /\
      (movesData <> [] ->
       Part003.attach s' (Part003.handleNextMove s') heard = movesData)).
Proof.
  split.
  2:{ intros s heard0 openingId variationName movesData. cbv zeta.
      rewrite settled_keeps_listener.
      assert (Hnone : Part003.attach
                        (Part003.startVariationPractice openingId variationName s)
                        (Part003.enterFreeplayMode
                           (Part003.startVariationPractice openingId variationName s))
                        (Part003.attach s
                           (Part003.startVariationPractice openingId variationName s)
                           heard0) = []) by reflexivity.
      rewrite Hnone.
      do 4 (split; [reflexivity|]). split.
      - intros source target. unfold Part003.handlePieceDrop. cbn -[move initial fen].
        destruct (move initial source target) as [[san g]|]; reflexivity.
      - intros Hmoves. destruct movesData as [|m ms]; [congruence|].
        unfold Part003.attach, Part003.depsChanged, Part003.handleNextMove.
        cbn [Part003.currentMoves Part003.startVariationPractice_settled
             Part003.setCurrentMoves Part003.setFeedback Part003.currentIndex
             Part003.enterFreeplayMode Part003.setBoardPosition Part003.setGame
             Part003.setLastFen Part003.setWrongMove Part003.setCurrentIndex].
        replace (0 <? len (m :: ms)) with true
          by (symmetry; apply Z.ltb_lt; unfold len; simpl; lia).
        cbn. reflexivity. }
  intros s openingId variationName movesData; cbv zeta.
  - do 4 (split; [reflexivity|]).
    intros source target san expected g Hexp Hmove Hne.
    set (s' := Part002.startVariationPractice_settled _ _).
    assert (Hexp' : at_index (Part002.currentMoves s') (Part002.currentIndex s')
                    = Some expected) by exact Hexp.
    assert (Hmove' : move (Part002.game s') source target = Some (san, g))
      by exact Hmove.
    destruct (handlePieceDrop_wrong_move s' source target Hexp' Hmove' Hne)
      as (Ha & _ & _ & Hw & _).
    now split.
Qed.

(** X11.  The random pick.  When its fetch throws or answers with an
    error status nothing but the feedback changes, so a practice in
    progress is kept; when it brings a pick, the session is the one
    [startVariationPractice] gives for that pick, the feedback naming the
    pick being overwritten at once.  Both files. *)
Theorem random_pick_outcomes :
  (forall (s : Part002.Session) (r : RandomResult),
      match r with
      | RandomPick openingId variationName =>
          Part002.handleRandomVariation_settled r (Part002.handleRandomVariation s)
          = Part002.startVariationPractice openingId variationName s
      | _ =>
          exists text,
            Part002.handleRandomVariation_settled r (Part002.handleRandomVariation s)
            = Part002.setFeedback text s
      end) /\
  (forall (s : Part003.Session) (r : RandomResult),
      match r with
      | RandomPick openingId variationName =>
          Part003.handleRandomVariation_settled r (Part003.handleRandomVariation s)
          = Part003.startVariationPractice openingId variationName s
      | _ =>
          exists text,
            Part003.handleRandomVariation_settled r (Part003.handleRandomVariation s)
            = Part003.setFeedback text s
      end).
Proof.
  split; intros s r; destruct r; cbn; try (eexists; reflexivity); reflexivity.
Qed.

(** X12.  Selecting an opening never touches the practice: whatever the
    fetch of the details settles to, the game, the loaded variation, the
    index, the flag and [lastFen] are as before.  A failure changes the
    feedback only; a success stores the details, which hides the board,
    and neither half of [startVariationPractice] brings it back while
    [enterFreeplayMode] always does ([part_002]). *)
Theorem select_opening_keeps_practice (s : Part002.Session) (r : DetailResult) :
  let s' := Part002.handleSelectOpening_settled r (Part002.handleSelectOpening s) in
  Part002.game s' = Part002.game s /\
  Part002.currentOpeningId s' = Part002.currentOpeningId s /\
  Part002.currentVariationName s' = Part002.currentVariationName s /\
  Part002.currentMoves s' = Part002.currentMoves s /\
  Part002.currentIndex s' = Part002.currentIndex s /\
  Part002.wrongMove s' = Part002.wrongMove s /\
  Part002.lastFen s' = Part002.lastFen s /\
  Part002.lastFenIndex s' = Part002.lastFenIndex s /\
  Part002.boardPosition s' = Part002.boardPosition s /\
  match r with
  | DetailData data =>
      Part002.selectedOpening s' = Some data /\
      Part002.boardShown s' = false /\
      (forall openingId variationName res,
          Part002.boardShown
            (Part002.startVariationPractice_settled res
               (Part002.startVariationPractice openingId variationName s'))
          = false) /\
      Part002.boardShown (Part002.enterFreeplayMode s') = true
  | _ => Part002.selectedOpening s' = Part002.selectedOpening s
  end.
Proof.
  cbv zeta. destruct r; cbn; repeat split.
  intros openingId variationName res. destruct res; reflexivity.
Qed.

(** The same in [part_003]. *)
Lemma part003_select_opening_keeps_practice (s : Part003.Session)
    (r : DetailResult) :
  let s' := Part003.handleSelectOpening_settled r (Part003.handleSelectOpening s) in
  Part003.game s' = Part003.game s /\
  Part003.currentMoves s' = Part003.currentMoves s /\
  Part003.currentIndex s' = Part003.currentIndex s /\
  Part003.wrongMove s' = Part003.wrongMove s /\
  Part003.lastFen s' = Part003.lastFen s /\
  match r with
  | DetailData data => Part003.selectedOpening s' = Some data
  | _ => Part003.selectedOpening s' = Part003.selectedOpening s
  end.
Proof. cbv zeta. destruct r; cbn; repeat split. Qed.

(** X13.  Loading the list of openings: once the fetch has settled the
    loading flag is down on every path; the list is replaced only by a
    payload that arrived, and kept when the fetch threw or answered with
    an error status; of the session only the feedback can change.  Both
    files. *)
Theorem loadOpenings_settles :
  (forall (s : Part002.Session) (b : Sidebar) (r : ListResult),
      let c := Part002.loadOpenings_settled r (Part002.loadOpenings (s, b)) in
      loading (snd (Part002.loadOpenings (s, b))) = true /\
      loading (snd c) = false /\
      openings (snd c) = match r with ListData data => data | _ => openings b end /\
      exists text, fst c = Part002.setFeedback text s) /\
  (forall (s : Part003.Session) (b : Sidebar) (r : ListResult),
      let c := Part003.loadOpenings_settled r (Part003.loadOpenings (s, b)) in
      loading (snd (Part003.loadOpenings (s, b))) = true /\
      loading (snd c) = false /\
      openings (snd c) = match r with ListData data => data | _ => openings b end /\
      exists text, fst c = Part003.setFeedback text s).
Proof.
  split; intros s b r; cbv zeta; destruct r; cbn; repeat split;
    try (eexists; reflexivity).
  exists (Part003.feedback s). now destruct s.
Qed.

End MoreLoads.

(** ** The endpoint *)

Section Urls.

Lemma stripTrailingSlashes_slashes (n : nat) :
  Part002.stripTrailingSlashes (slashes n) = "".
Proof. induction n as [|n IH]; simpl; [reflexivity | now rewrite IH]. Qed.

Lemma stripTrailingSlashes_app_slashes (s : string) (n : nat) :
  Part002.stripTrailingSlashes (s ++ slashes n) = Part002.stripTrailingSlashes s.
Proof.
  induction s as [|c s IH]; simpl.
  - apply stripTrailingSlashes_slashes.
  - now rewrite IH.
Qed.

Lemma stripTrailingSlashes_no_slash_last (s b : string) :
  Part002.stripTrailingSlashes s <> b ++ "/".
Proof.
  revert b. induction s as [|c s IH]; intros b; simpl.
  - destruct b; discriminate.
  - destruct (Part002.stripTrailingSlashes s) as [|c' r'] eqn:E.
    + destruct (Ascii.eqb c "/") eqn:Hc.
      * destruct b; discriminate.
      * destruct b as [|cb b]; simpl.
        -- intros H. injection H as ->. now rewrite Ascii.eqb_refl in Hc.
        -- destruct b; discriminate.
    + destruct b as [|cb b]; simpl; [discriminate|].
      intros H. injection H as _ H. exact (IH b H).
Qed.

Lemma stripLeadingSlashes_slashes_app (n : nat) (path : string) :
  Part002.stripLeadingSlashes (slashes n ++ path) = Part002.stripLeadingSlashes path.
Proof. induction n as [|n IH]; simpl; [reflexivity | exact IH]. Qed.

Lemma stripLeadingSlashes_no_slash_first (path p : string) :
  Part002.stripLeadingSlashes path <> "/" ++ p.
Proof.
  induction path as [|c path IH]; simpl; [discriminate|].
  destruct (Ascii.eqb c "/") eqn:Hc; [exact IH|].
  intros H. injection H as -> _. now rewrite Ascii.eqb_refl in Hc.
Qed.

(** X14.  [buildUrl] joins the base and the path with one slash: the
    base it uses never ends with a slash and what it appends after the
    slash never starts with one.  Slashes in front of the path do not
    change the URL, nor do slashes at the end of a base that is set; with
    the variable unset or empty the base is the deployed server. *)
Theorem buildUrl_joins_with_one_slash (VITE_API_URL : option string) (path : string) :
  Part002.buildUrl VITE_API_URL path
  = Part002.API_BASE_URL VITE_API_URL ++ "/" ++ Part002.stripLeadingSlashes path /\
  (forall b, Part002.API_BASE_URL VITE_API_URL <> b ++ "/") /\
  (forall p, Part002.stripLeadingSlashes path <> "/" ++ p) /\
  (forall n, Part002.buildUrl VITE_API_URL (slashes n ++ path)
             = Part002.buildUrl VITE_API_URL path) /\
  (forall c base n,
      Part002.buildUrl (Some (String c base ++ slashes n)) path
      = Part002.buildUrl (Some (String c base)) path) /\
  Part002.buildUrl None path = Part002.buildUrl (Some "") path /\
  Part002.buildUrl None path
  = "https://chesswiz.onrender.com/" ++ Part002.stripLeadingSlashes path.
Proof.
  split; [reflexivity|].
  split; [intros b; apply stripTrailingSlashes_no_slash_last|].
  split; [intros p; apply stripLeadingSlashes_no_slash_first|].
  split.
  { intros n. unfold Part002.buildUrl.
    now rewrite stripLeadingSlashes_slashes_app. }
  split.
  { intros c base n. unfold Part002.buildUrl, Part002.API_BASE_URL.
    f_equal. exact (stripTrailingSlashes_app_slashes (String c base) n). }
  split; reflexivity.
Qed.

End Urls.

(** ** What every run of [part_002] keeps *)

Section MoreRuns.
Context {chess : Chess}.

Ltac branches :=
  repeat match goal with
         | |- context [match ?x with _ => _ end] => destruct x eqn:?
         | |- context [if ?b then _ else _] => destruct b eqn:?
         end.

(** A property of the session that every half of every handler keeps
    holds after every run that starts where it holds. *)
Lemma run_keeps (P : Part002.Session -> Prop) :
  (forall s source target, P s -> P (snd (Part002.handlePieceDrop source target s))) ->
  (forall s openingId variationName,
      P s -> P (Part002.startVariationPractice openingId variationName s)) ->
  (forall s r, P s -> P (Part002.startVariationPractice_settled r s)) ->
  (forall s, P s -> P (Part002.handlePrevMove s)) ->
  (forall s, P s -> P (Part002.handleNextMove s)) ->
  (forall s, P s -> P (Part002.handleResetToLastPosition s)) ->
  (forall s, P s -> P (Part002.handleResetBoard s)) ->
  (forall s, P s -> P (Part002.enterFreeplayMode s)) ->
  (forall s text, P s -> P (Part002.setFeedback text s)) ->
  forall (es : list Part002.Event) (w w' : Part002.World),
    P (Part002.session w) -> Part002.run es w = Some w' ->
    P (Part002.session w').
Proof.
  intros Hdrop Hstart Hsettled Hprev Hnext Hlast Hboard Hfree Htext.
  induction es as [|e es IH]; intros w w' HP Hrun; simpl in Hrun.
  - now injection Hrun as <-.
  - destruct (Part002.step e w) as [w1|] eqn:Hstep; [|discriminate].
    apply (IH w1 w'); [|exact Hrun]. clear IH Hrun.
    destruct e; unfold Part002.step in Hstep; cbv zeta in Hstep.
    + injection Hstep as <-. now apply Hdrop.
    + injection Hstep as <-. now apply Hstart.
    + destruct (Nat.ltb k _); [|discriminate].
      injection Hstep as <-. now apply Hsettled.
    + injection Hstep as <-. now apply Hprev.
    + injection Hstep as <-. now apply Hnext.
    + injection Hstep as <-. now apply Hlast.
    + injection Hstep as <-. now apply Hboard.
    + injection Hstep as <-. now apply Hfree.
    + injection Hstep as <-. now apply Htext.
    + destruct (Part002.randomFetches w); [discriminate|].
      injection Hstep as <-. destruct r; cbn [Part002.session];
        unfold Part002.handleRandomVariation_settled;
        try (now apply Htext). apply Hstart. now apply Htext.
Qed.

(** X15.  In every session the mounted component of [part_002] can
    reach, [lastFenIndex] is not negative and is 0 only with the start
    keyword in [lastFen], and the opening id is set exactly when the
    variation name is. *)
Theorem lastFen_and_identity_stay_paired (es : list Part002.Event)
    (w : Part002.World) :
  Part002.run es Part002.boot = Some w ->
  0 <= Part002.lastFenIndex (Part002.session w) /\
  (Part002.lastFenIndex (Part002.session w) = 0 ->
   Part002.lastFen (Part002.session w) = "start") /\
  (Part002.currentOpeningId (Part002.session w) = None <->
   Part002.currentVariationName (Part002.session w) = None).
Proof.
  intros Hrun.
  destruct (run_tracked es Part002.boot mount_tracked Hrun) as (_ & Hl & Hf).
  split; [exact Hl|]. split; [exact Hf|].
  apply (@run_keeps
           (fun s => Part002.currentOpeningId s = None <->
                     Part002.currentVariationName s = None))
    with (es := es) (w := Part002.boot); try exact Hrun; try (cbn; tauto).
  - intros s source target HP. unfold Part002.handlePieceDrop.
    branches; cbn; exact HP.
  - intros s openingId variationName _. cbn. split; discriminate.
  - intros s r HP. destruct r; exact HP.
  - intros s HP. unfold Part002.handlePrevMove. branches; cbn; exact HP.
  - intros s HP. unfold Part002.handleNextMove. branches; cbn; exact HP.
  - intros s HP. unfold Part002.handleResetToLastPosition.
    branches; cbn; exact HP.
  - intros s HP. unfold Part002.handleResetBoard. branches; cbn; exact HP.
Qed.

Lemma step_quiet (e : Part002.Event) (w w' : Part002.World) :
  in_step w ->
  (Part002.currentMoves (Part002.session w) = [] ->
   Part002.wrongMove (Part002.session w) = false) ->
  Part002.step e w = Some w' ->
  Part002.currentMoves (Part002.session w') = [] ->
  Part002.wrongMove (Part002.session w') = false.
Proof.
  intros (_ & _ & _ & Hempty) Hq Hstep.
  destruct e; unfold Part002.step in Hstep; cbv zeta in Hstep.
  - injection Hstep as <-. cbn [Part002.session].
    unfold Part002.handlePieceDrop.
    destruct (Part002.currentMoves (Part002.session w)) eqn:E.
    + destruct (move _ _ _) as [[san g]|]; cbn; rewrite ?E; auto.
    + destruct (_ <=? _); [cbn; rewrite E; discriminate|].
      destruct (move _ _ _) as [[san g]|]; [|cbn; rewrite E; discriminate].
      cbv zeta. destruct (strict_eq _ _); cbn; rewrite E; discriminate.
  - injection Hstep as <-. reflexivity.
  - destruct (Nat.ltb k _) eqn:Hk; [|discriminate].
    injection Hstep as <-. apply Nat.ltb_lt in Hk.
    assert (Hnil : Part002.currentMoves (Part002.session w) = []).
    { apply Hempty. destruct (Part002.movesFetches w); [simpl in Hk; lia | discriminate]. }
    intros _. destruct r; cbn; auto.
  - injection Hstep as <-. cbn [Part002.session]. unfold Part002.handlePrevMove.
    branches; cbn; auto; match goal with E : Part002.currentMoves _ = _ |- _ =>
      rewrite E; try discriminate end.
  - injection Hstep as <-. cbn [Part002.session]. unfold Part002.handleNextMove.
    branches; cbn; auto; match goal with E : Part002.currentMoves _ = _ |- _ =>
      rewrite E; try discriminate end.
  - injection Hstep as <-. cbn [Part002.session].
    unfold Part002.handleResetToLastPosition. branches; reflexivity.
  - injection Hstep as <-. cbn [Part002.session].
    unfold Part002.handleResetBoard. branches; cbn; auto.
  - injection Hstep as <-. reflexivity.
  - injection Hstep as <-. exact Hq.
  - destruct (Part002.randomFetches w); [discriminate|].
    injection Hstep as <-. destruct r; cbn; auto.
Qed.

Lemma run_quiet (es : list Part002.Event) (w w' : Part002.World) :
  tracked (Part002.session w) -> in_step w ->
  (Part002.currentMoves (Part002.session w) = [] ->
   Part002.wrongMove (Part002.session w) = false) ->
  Part002.one_at_a_time es w = true ->
  Part002.run es w = Some w' ->
  Part002.currentMoves (Part002.session w') = [] ->
  Part002.wrongMove (Part002.session w') = false.
Proof.
  revert w. induction es as [|e es IH]; intros w Ht Hin Hq Hone Hrun;
    simpl in Hrun, Hone.
  - now injection Hrun as <-.
  - destruct (Part002.step e w) as [w1|] eqn:Hstep; [|discriminate].
    apply andb_true_iff in Hone as [Hno Hrest].
    apply (IH w1); auto.
    + exact (step_tracked e w Ht Hstep).
    + apply (step_in_step e Ht Hin); [|exact Hstep].
      intros Hissue. rewrite Hissue in Hno. simpl in Hno.
      apply negb_true_iff, negb_false_iff, Nat.eqb_eq in Hno.
      now destruct (Part002.movesFetches w).
    + exact (step_quiet e Hin Hq Hstep).
Qed.

(** X16.  [part_002], as long as no move list is fetched while another
    fetch is in flight: at most one fetch is in flight and no move is
    loaded while it is; [lastFenIndex] is at most the number of moves;
    with no move loaded the index and [lastFenIndex] are 0, [lastFen] is
    the start keyword and the wrong-move flag is down; and whenever the
    Reset to Last button is shown, pressing it lands on an index between
    1 and the number of moves. *)
Theorem one_load_at_a_time_keeps_order (es : list Part002.Event)
    (w : Part002.World) :
  Part002.run es Part002.boot = Some w ->
  Part002.one_at_a_time es Part002.boot = true ->
  let s := Part002.session w in
  (List.length (Part002.movesFetches w) <= 1)%nat /\
  (Part002.movesFetches w <> [] -> Part002.currentMoves s = []) /\
  Part002.lastFenIndex s <= len (Part002.currentMoves s) /\
  idle_when_empty s /\
  (Part002.resetToLastShown s = true ->
   1 <= Part002.currentIndex (Part002.handleResetToLastPosition s)
     <= len (Part002.currentMoves (Part002.handleResetToLastPosition s))).
Proof.
  intros Hrun Hone. cbv zeta.
  destruct (run_tracked es Part002.boot mount_tracked Hrun) as (Hi0 & Hl0 & Hf).
  destruct (run_in_step es (w := Part002.boot) mount_tracked boot_in_step Hone Hrun)
    as (Hi & Hl & Hlen & Hempty).
  assert (Hq : Part002.currentMoves (Part002.session w) = [] ->
               Part002.wrongMove (Part002.session w) = false).
  { apply (run_quiet es (w := Part002.boot) mount_tracked boot_in_step); auto. }
  split; [exact Hlen|]. split; [exact Hempty|]. split; [exact Hl|]. split.
  - intros Hnil. rewrite Hnil, len_nil in Hi, Hl.
    assert (Hzero : Part002.lastFenIndex (Part002.session w) = 0) by lia.
    split; [lia|]. split; [now apply Hq|]. split; [exact Hzero | now apply Hf].
  - intros Hshown. unfold Part002.resetToLastShown in Hshown.
    apply andb_true_iff in Hshown as [_ Hpos]. apply Z.ltb_lt in Hpos.
    unfold Part002.handleResetToLastPosition.
    replace (Part002.lastFenIndex (Part002.session w) =? 0) with false
      by (symmetry; apply Z.eqb_neq; lia).
    cbn. lia.
Qed.

End MoreRuns.

(** ** The board and the game *)

Section BoardAndGame.
Context {chess : Chess}.

Ltac split_cases :=
  repeat match goal with
         | |- context [match ?x with _ => _ end] => destruct x eqn:?
         | |- context [if ?b then _ else _] => destruct b eqn:?
         end.

(** X17.  [part_002] with a chess.js whose [load] reads back every FEN
    its [fen] prints: in every session the mounted component can reach,
    the board shows the game (the start keyword with the game reset, or
    the very FEN the game prints), and [lastFen] is a FEN some game
    printed whenever [lastFenIndex] is not 0. *)
Theorem board_shows_the_game :
  (forall g g0 : Game, fen (load g (fen g0)) = fen g0) ->
  forall (es : list Part002.Event) (w : Part002.World),
    Part002.run es Part002.boot = Some w ->
    board_shows_game (Part002.session w) /\ lastFen_printed (Part002.session w).
Proof.
  intros Hload es w Hrun.
  apply (@run_keeps chess (fun s => board_shows_game s /\ lastFen_printed s))
    with (es := es) (w := Part002.boot); try exact Hrun;
    unfold board_shows_game, lastFen_printed.
  - intros s source target [Hb Hf]. unfold Part002.handlePieceDrop.
    split_cases; cbn; split; eauto.
  - intros s openingId variationName _. cbn. split; [auto | congruence].
  - intros s r HP. destruct r; exact HP.
  - intros s [Hb Hf]. unfold Part002.handlePrevMove.
    split_cases; cbn; split; auto.
  - intros s [Hb Hf]. unfold Part002.handleNextMove.
    split_cases; cbn; split; auto.
  - intros s [Hb Hf]. unfold Part002.handleResetToLastPosition.
    destruct (Part002.lastFenIndex s =? 0) eqn:Hz; cbn; split; auto.
    right. apply Z.eqb_neq in Hz. destruct (Hf Hz) as [g0 ->].
    symmetry. apply Hload.
  - intros s [Hb Hf]. unfold Part002.handleResetBoard.
    split_cases; cbn; split; auto. congruence.
  - intros s _. cbn. split; [auto | congruence].
  - intros s text HP. exact HP.
  - cbn. split; [auto | congruence].
Qed.

(** X18.  [part_003], where a wrong drop stays in the game.  Take a drop
    the attached listener judges wrong: it closes over some moves and the
    SAN of the legal drop is not the one it expects at the index.  With
    [lastFen] holding the FEN of the game, as Next, Prev and a right drop
    leave it, the Reset to Last button is shown after that drop exactly
    when the session has moves loaded and the index is above 0, and
    pressing it loads that FEN into the game, shows it on the board and
    clears the flag without touching the index; a chess.js that reads
    the FEN back is then where it was before the wrong drop. *)
Theorem part003_reset_to_last_repairs_wrong_drop (heard : list string)
    (s : Part003.Session) (source target san : string) (g : Game) :
  heard <> [] ->
  Part003.lastFen s = fen (Part003.game s) ->
  move (Part003.game s) source target = Some (san, g) ->
  strict_eq (toLowerCase san)
    (option_map toLowerCase (at_index heard (Part003.currentIndex s))) = false ->
  let s1 := snd (Part003.handlePieceDrop heard source target s) in
  let s2 := Part003.handleResetToLastPosition s1 in
  fst (Part003.handlePieceDrop heard source target s) = Snapback /\
  Part003.game s1 = g /\
  Part003.wrongMove s1 = true /\
  Part003.resetToLastShown s1
  = ((0 <? len (Part003.currentMoves s)) && (0 <? Part003.currentIndex s)) /\
  Part003.game s2 = load g (fen (Part003.game s)) /\
  Part003.boardPosition s2 = fen (Part003.game s) /\
  Part003.wrongMove s2 = false /\
  Part003.currentIndex s2 = Part003.currentIndex s /\
  Part003.currentMoves s2 = Part003.currentMoves s /\
  (fen (load g (fen (Part003.game s))) = fen (Part003.game s) ->
   fen (Part003.game s2) = fen (Part003.game s)).
Proof.
  intros Hmoves Hfen Hmove Hne. cbv zeta.
  rewrite (part003_handlePieceDrop_not_expected s source target Hmoves Hmove Hne).
  unfold Part003.resetToLastShown. cbn. rewrite Hfen.
  rewrite andb_true_r. repeat split; auto.
Qed.

(** In [part_003] Next, Prev and a right drop leave in [lastFen] the FEN
    of the game. *)
Lemma part003_lastFen_follows_game :
  (forall s : Part003.Session,
      Part003.currentMoves s <> [] ->
      Part003.currentIndex s < len (Part003.currentMoves s) ->
      Part003.lastFen (Part003.handleNextMove s)
      = fen (Part003.game (Part003.handleNextMove s))) /\
  (forall s : Part003.Session,
      Part003.currentMoves s <> [] -> 0 < Part003.currentIndex s ->
      Part003.lastFen (Part003.handlePrevMove s)
      = fen (Part003.game (Part003.handlePrevMove s))).
Proof.
  split; intros s Hmoves Hidx.
  - unfold Part003.handleNextMove.
    destruct (Part003.currentMoves s) as [|x xs]; [congruence|].
    replace (Part003.currentIndex s <? len (x :: xs)) with true
      by (symmetry; apply Z.ltb_lt; lia).
    reflexivity.
  - unfold Part003.handlePrevMove.
    destruct (Part003.currentMoves s) as [|x xs]; [congruence|].
    replace (Part003.currentIndex s <=? 0) with false
      by (symmetry; apply Z.leb_gt; lia).
    reflexivity.
Qed.

End BoardAndGame.

(** ** Pressing a reset twice *)

Section ResetTwice.
Context {chess : Chess}.

(** X19.  [handleResetBoard] pressed twice is [handleResetBoard] pressed
    once, and with no move loaded it changes the game, the board and the
    feedback only.  [handleResetToLastPosition] pressed twice is the same
    as pressed once as soon as loading [lastFen] a second time leaves the
    game as the first load left it.  Both files. *)
Theorem resets_are_idempotent :
  (forall s : Part002.Session,
      Part002.handleResetBoard (Part002.handleResetBoard s)
      = Part002.handleResetBoard s) /\
  (forall s : Part003.Session,
      Part003.handleResetBoard (Part003.handleResetBoard s)
      = Part003.handleResetBoard s) /\
  (forall s : Part002.Session,
      Part002.currentMoves s = [] ->
      Part002.handleResetBoard s
      = (s |> Part002.setGame initial |> Part002.setBoardPosition "start"
           |> Part002.setFeedback "Board reset in free-play mode.")) /\
  (forall s : Part003.Session,
      Part003.currentMoves s = [] ->
      Part003.handleResetBoard s
      = (s |> Part003.setGame initial |> Part003.setBoardPosition "start"
           |> Part003.setFeedback "Board reset in free-play mode.")) /\
  (forall s : Part002.Session,
      load (load (Part002.game s) (Part002.lastFen s)) (Part002.lastFen s)
      = load (Part002.game s) (Part002.lastFen s) ->
      Part002.handleResetToLastPosition (Part002.handleResetToLastPosition s)
      = Part002.handleResetToLastPosition s) /\
  (forall s : Part003.Session,
      load (load (Part003.game s) (Part003.lastFen s)) (Part003.lastFen s)
      = load (Part003.game s) (Part003.lastFen s) ->
      Part003.handleResetToLastPosition (Part003.handleResetToLastPosition s)
      = Part003.handleResetToLastPosition s).
Proof.
  split; [|split; [|split; [|split; [|split]]]].
  - intros s. unfold Part002.handleResetBoard.
    destruct (0 <? len (Part002.currentMoves s)) eqn:E; cbn; rewrite E; reflexivity.
  - intros s. unfold Part003.handleResetBoard.
    destruct (0 <? len (Part003.currentMoves s)) eqn:E; cbn; rewrite E; reflexivity.
  - intros s Hnone. unfold Part002.handleResetBoard. now rewrite Hnone.
  - intros s Hnone. unfold Part003.handleResetBoard. now rewrite Hnone.
  - intros s Hload. unfold Part002.handleResetToLastPosition.
    destruct (Part002.lastFenIndex s =? 0) eqn:E; cbn; rewrite E;
      [reflexivity|]. cbn. now rewrite Hload.
  - intros s Hload. unfold Part003.handleResetToLastPosition. cbn.
    now rewrite Hload.
Qed.

End ResetTwice.

(** ** The further theorems at concrete sessions *)

Section MoreWitnesses.
#[local] Existing Instance Mini.chess.

Lemma mini_undo_takes_back (g g' : Mini.Game) (m san : string) :
  Mini.moveSAN g m = Some (san, g') -> Mini.undo g' = g.
Proof.
  unfold Mini.moveSAN, Mini.play. destruct (find _ _) as [r|]; [|discriminate].
  intros H. injection H as _ <-. now destruct g.
Qed.

Lemma tab_load_reads_fen (g g0 : Tab.Game) :
  Tab.print (Tab.position (Tab.load g (Tab.print (Tab.position g0))))
  = Tab.print (Tab.position g0).
Proof. destruct g0 as [p h]. destruct p; reflexivity. Qed.

Lemma illegal_drop_changes_nothing_witness :
  move (Part002.game Play.afterWrongDrop002) "e2" "e5" = None /\
  fst (Part002.handlePieceDrop "e2" "e5" Play.afterWrongDrop002) = Snapback /\
  move (Part003.game Play.afterNext003) "e2" "e5" = None /\
  Part003.handlePieceDrop Play.mainLine "e2" "e5" Play.afterNext003
  = (Snapback, Play.afterNext003).
Proof.
  assert (H2 : move (Part002.game Play.afterWrongDrop002) "e2" "e5" = None)
    by reflexivity.
  assert (H3 : move (Part003.game Play.afterNext003) "e2" "e5" = None)
    by reflexivity.
  destruct (proj1 illegal_drop_changes_nothing _ _ _ H2) as [text Htext].
  split; [exact H2|]. split; [rewrite Htext; reflexivity|].
  split; [exact H3|].
  exact (proj2 illegal_drop_changes_nothing Play.mainLine _ _ _ H3).
Defined.

Lemma right_drop_is_counted_witness :
  at_index (Part002.currentMoves Play.afterWrongDrop002)
           (Part002.currentIndex Play.afterWrongDrop002) = Some "e4" /\
  Part002.currentIndex
    (snd (Part002.handlePieceDrop "e2" "e4" Play.afterWrongDrop002)) = 1 /\
  Part003.run Play.loadAndNextEvents003 Part003.boot
  = Some (Part003.mkWorld Play.afterNext003 Play.mainLine [] 0) /\
  at_index Play.mainLine (Part003.currentIndex Play.afterNext003) = Some "e5" /\
  Part003.currentIndex
    (snd (Part003.handlePieceDrop Play.mainLine "e7" "e5" Play.afterNext003)) = 2.
Proof.
  assert (E2 : at_index (Part002.currentMoves Play.afterWrongDrop002)
                 (Part002.currentIndex Play.afterWrongDrop002) = Some "e4")
    by reflexivity.
  assert (M2 : move (Part002.game Play.afterWrongDrop002) "e2" "e4"
               = Some ("e4", Mini.mkGame Mini.fen_e4 [Mini.fen_start]))
    by reflexivity.
  assert (E3 : at_index Play.mainLine (Part003.currentIndex Play.afterNext003)
               = Some "e5") by reflexivity.
  assert (M3 : move (Part003.game Play.afterNext003) "e7" "e5"
               = Some ("e5", Mini.mkGame Mini.fen_e4_e5 [Mini.fen_e4; Mini.fen_start]))
    by reflexivity.
  assert (N3 : "e5" <> "") by discriminate.
  destruct (proj1 right_drop_is_counted _ _ _ _ _ _ E2 M2 eq_refl)
    as (_ & _ & Hi2 & _).
  destruct (proj2 right_drop_is_counted Play.mainLine _ _ _ _ _ _ E3 N3 M3 eq_refl)
    as (_ & _ & Hi3 & _).
  split; [exact E2|]. split; [rewrite Hi2; reflexivity|].
  split; [vm_compute; reflexivity|].
  split; [exact E3 | rewrite Hi3; reflexivity].
Defined.

Lemma freeplay_drop_keeps_progress_witness :
  Part002.currentMoves Play.failedLoad002 = [] /\
  Part002.currentIndex
    (snd (Part002.handlePieceDrop "e2" "e4" Play.failedLoad002)) = 0 /\
  Part003.run Play.failedLoadEvents003 Part003.boot
  = Some (Part003.mkWorld Play.failedLoad003 [] [] 0) /\
  Part003.wrongMove
    (snd (Part003.handlePieceDrop [] "e2" "e4" Play.failedLoad003)) = false.
Proof.
  destruct (proj1 freeplay_drop_keeps_progress Play.failedLoad002 "e2" "e4" eq_refl)
    as (_ & _ & Hi & _).
  destruct (proj2 freeplay_drop_keeps_progress Play.failedLoad003 "e2" "e4")
    as (_ & _ & _ & Hw & _).
  split; [reflexivity|]. split; [rewrite Hi; reflexivity|].
  split; [vm_compute; reflexivity | rewrite Hw; reflexivity].
Defined.

Lemma reset_after_wrong_drop_restores_right_one_witness :
  Part002.resetToLastShown Play.afterRightThenWrong002 = true /\
  Part002.currentIndex
    (Part002.handleResetToLastPosition Play.afterRightThenWrong002) = 1 /\
  fen (Part002.game
         (Part002.handleResetToLastPosition Play.afterRightThenWrong002))
  = Mini.fen_e4.
Proof.
  unfold Play.afterRightThenWrong002.
  set (s := Part002.startVariationPractice_settled _ _).
  assert (E1 : at_index (Part002.currentMoves s) (Part002.currentIndex s)
               = Some "e4") by reflexivity.
  assert (M1 : move (Part002.game s) "e2" "e4"
               = Some ("e4", Mini.mkGame Mini.fen_e4 [Mini.fen_start]))
    by reflexivity.
  assert (E2 : at_index (Part002.currentMoves s) (Part002.currentIndex s + 1)
               = Some "e5") by reflexivity.
  assert (M2 : move (Mini.mkGame Mini.fen_e4 [Mini.fen_start]) "d7" "d5"
               = Some ("d5", Mini.mkGame Mini.fen_e4_d5 [Mini.fen_e4; Mini.fen_start]))
    by reflexivity.
  assert (N2 : toLowerCase "d5" <> toLowerCase "e5") by discriminate.
  destruct (reset_after_wrong_drop_restores_right_one s "e2" "e4" "d7" "d5"
              E1 M1 eq_refl E2 M2 N2) as (Hshown & Hg & _ & Hi & _).
  split; [exact Hshown|]. split; [rewrite Hi; reflexivity|].
  rewrite Hg. reflexivity.
Defined.

Lemma next_presses_walk_the_line_witness :
  replay Mini.initial Play.mainLine
  = Some (Mini.mkGame Mini.fen_e4_e5_Nf3
            [Mini.fen_e4_e5; Mini.fen_e4; Mini.fen_start]) /\
  Part002.currentIndex
    (Nat.iter 3 Part002.handleNextMove
       (Part002.startVariationPractice_settled (MovesArray Play.mainLine)
          (Part002.startVariationPractice "1" "Main Line" Part002.mount))) = 3.
Proof.
  set (s := Part002.startVariationPractice_settled _ _).
  assert (Hplay : replay (Part002.game s) Play.mainLine
                  = Some (Mini.mkGame Mini.fen_e4_e5_Nf3
                            [Mini.fen_e4_e5; Mini.fen_e4; Mini.fen_start]))
    by reflexivity.
  assert (Hidx : 0 <= Part002.currentIndex s) by (cbn; lia).
  assert (Hskip : skipn (Z.to_nat (Part002.currentIndex s)) (Part002.currentMoves s)
                  = (Play.mainLine ++ [])%list) by reflexivity.
  destruct (next_presses_walk_the_line Play.mainLine s [] Hidx Hskip Hplay)
    as (Hi & _).
  split; [exact Hplay|]. exact Hi.
Defined.

Lemma prev_presses_undo_next_presses_witness :
  (forall (g g' : Game) (m san : string),
      moveSAN g m = Some (san, g') -> undo g' = g) /\
  Part002.currentIndex
    (Nat.iter 3 Part002.handlePrevMove
       (Nat.iter 3 Part002.handleNextMove
          (Part002.startVariationPractice_settled (MovesArray Play.mainLine)
             (Part002.startVariationPractice "1" "Main Line" Part002.mount)))) = 0 /\
  Part002.game
    (Nat.iter 3 Part002.handlePrevMove
       (Nat.iter 3 Part002.handleNextMove
          (Part002.startVariationPractice_settled (MovesArray Play.mainLine)
             (Part002.startVariationPractice "1" "Main Line" Part002.mount))))
  = Mini.initial.
Proof.
  set (s := Part002.startVariationPractice_settled _ _).
  assert (Hplay : replay (Part002.game s) Play.mainLine
                  = Some (Mini.mkGame Mini.fen_e4_e5_Nf3
                            [Mini.fen_e4_e5; Mini.fen_e4; Mini.fen_start]))
    by reflexivity.
  assert (Hidx : 0 <= Part002.currentIndex s) by (cbn; lia).
  assert (Hskip : skipn (Z.to_nat (Part002.currentIndex s)) (Part002.currentMoves s)
                  = (Play.mainLine ++ [])%list) by reflexivity.
  destruct (prev_presses_undo_next_presses (chess := Mini.chess) Play.mainLine
              (@mini_undo_takes_back)
              s [] Hidx Hskip Hplay) as (Hg & _ & _ & _ & Hi & _).
  split; [exact (@mini_undo_takes_back)|]. split; [exact Hi | exact Hg].
Defined.

Lemma stepping_at_the_ends_witness :
  len (Part002.currentMoves Play.completed002)
    <= Part002.currentIndex Play.completed002 /\
  Part002.currentIndex (Part002.handleNextMove Play.completed002) = 1 /\
  Part003.currentMoves Play.failedLoad003 = [] /\
  Part003.handlePrevMove Play.failedLoad003 = Play.failedLoad003.
Proof.
  assert (Hend : len (Part002.currentMoves Play.completed002)
                   <= Part002.currentIndex Play.completed002)
    by (vm_compute; discriminate).
  destruct stepping_at_the_ends as (Hnext & _ & Hnone & _).
  destruct (Hnext Play.completed002 (or_intror Hend)) as [text Htext].
  destruct (Hnone Play.failedLoad003 eq_refl) as [_ Hprev].
  split; [exact Hend|]. split; [rewrite Htext; reflexivity|].
  split; [reflexivity | exact Hprev].
Defined.

Lemma fetch_settling_after_freeplay_witness :
  at_index Play.mainLine 0 = Some "e4" /\
  move Mini.initial "d2" "d4"
  = Some ("d4", Mini.mkGame Mini.fen_d4 [Mini.fen_start]) /\
  fst (Part002.handlePieceDrop "d2" "d4"
         (Part002.mount |> Part002.startVariationPractice "1" "Main Line"
            |> Part002.enterFreeplayMode
            |> Part002.startVariationPractice_settled (MovesArray Play.mainLine)))
  = Snapback /\
  exists w : Part003.World,
    Part003.run Play.lateFetchEvents003 Part003.boot = Some w /\
    Part003.currentMoves (Part003.session w) = Play.mainLine /\
    Part003.heard w = [] /\
    fst (Part003.handlePieceDrop (Part003.heard w) "d2" "d4" (Part003.session w))
    = Drop.
Proof.
  assert (N : toLowerCase "d4" <> toLowerCase "e4") by discriminate.
  destruct (proj1 fetch_settling_after_freeplay Part002.mount "1" "Main Line"
              Play.mainLine) as (_ & _ & _ & _ & Hdrop).
  destruct (Hdrop "d2" "d4" "d4" "e4" (Mini.mkGame Mini.fen_d4 [Mini.fen_start])
              eq_refl eq_refl N) as [Ha _].
  destruct (proj2 fetch_settling_after_freeplay Part003.mount [] "1" "Main Line"
              Play.mainLine) as (_ & _ & Hm & Hh & Hfree & _).
  split; [reflexivity|]. split; [reflexivity|]. split; [exact Ha|].
  exists (Part003.mkWorld
            (Part003.startVariationPractice_settled (MovesArray Play.mainLine)
               (Part003.enterFreeplayMode
                  (Part003.startVariationPractice "1" "Main Line" Part003.mount)))
            [] [] 0).
  split; [vm_compute; reflexivity|]. split; [exact Hm|]. split; [reflexivity|].
  cbn [Part003.heard Part003.session]. rewrite Hh in Hfree.
  rewrite (Hfree "d2" "d4"). reflexivity.
Defined.

Lemma lastFen_and_identity_stay_paired_witness :
  exists w : Part002.World,
    Part002.run Play.lesson Part002.boot = Some w /\
    0 <= Part002.lastFenIndex (Part002.session w) /\
    (Part002.currentOpeningId (Part002.session w) = None <->
     Part002.currentVariationName (Part002.session w) = None).
Proof.
  destruct (Part002.run Play.lesson Part002.boot) as [w|] eqn:Hrun;
    [|discriminate Hrun].
  exists w. split; [reflexivity|].
  destruct (lastFen_and_identity_stay_paired Play.lesson Hrun) as (Hl & _ & Hp).
  split; [exact Hl | exact Hp].
Defined.

Lemma one_load_at_a_time_keeps_order_witness :
  exists w : Part002.World,
    Part002.run Play.lesson Part002.boot = Some w /\
    Part002.one_at_a_time Play.lesson Part002.boot = true /\
    Part002.lastFenIndex (Part002.session w)
      <= len (Part002.currentMoves (Part002.session w)).
Proof.
  destruct (Part002.run Play.lesson Part002.boot) as [w|] eqn:Hrun;
    [|discriminate Hrun].
  exists w. split; [reflexivity|].
  assert (Hone : Part002.one_at_a_time Play.lesson Part002.boot = true)
    by reflexivity.
  destruct (one_load_at_a_time_keeps_order Play.lesson Hrun Hone)
    as (_ & _ & Hl & _).
  split; [exact Hone | exact Hl].
Defined.

Lemma board_shows_the_game_witness :
  (forall g g0 : @Game Tab.chess,
      @fen Tab.chess (@load Tab.chess g (@fen Tab.chess g0)) = @fen Tab.chess g0) /\
  exists w : @Part002.World Tab.chess,
    Part002.run Play.lesson Part002.boot = Some w /\
    board_shows_game (Part002.session w).
Proof.
  split; [exact (@tab_load_reads_fen)|].
  destruct (Part002.run Play.lesson (@Part002.boot Tab.chess)) as [w|] eqn:Hrun;
    [|discriminate Hrun].
  exists w. split; [reflexivity|].
  exact (proj1 (@board_shows_the_game Tab.chess (@tab_load_reads_fen) Play.lesson w Hrun)).
Defined.

Lemma part003_reset_to_last_repairs_wrong_drop_witness :
  Part003.run Play.loadAndNextEvents003 Part003.boot
  = Some (Part003.mkWorld Play.afterNext003 Play.mainLine [] 0) /\
  Part003.lastFen Play.afterNext003 = fen (Part003.game Play.afterNext003) /\
  Part003.resetToLastShown
    (snd (Part003.handlePieceDrop Play.mainLine "d7" "d5" Play.afterNext003))
  = true /\
  fen (Part003.game
         (Part003.handleResetToLastPosition
            (snd (Part003.handlePieceDrop Play.mainLine "d7" "d5"
                    Play.afterNext003))))
  = Mini.fen_e4.
Proof.
  assert (Hmoves : Play.mainLine <> []) by discriminate.
  assert (Hfen : Part003.lastFen Play.afterNext003
                 = fen (Part003.game Play.afterNext003)) by reflexivity.
  assert (Hmove : move (Part003.game Play.afterNext003) "d7" "d5"
                  = Some ("d5", Mini.mkGame Mini.fen_e4_d5 [Mini.fen_e4; Mini.fen_start]))
    by reflexivity.
  destruct (part003_reset_to_last_repairs_wrong_drop Play.afterNext003 "d7" "d5"
              Hmoves Hfen Hmove eq_refl)
    as (_ & _ & _ & Hshown & _ & _ & _ & _ & _ & Hpos).
  split; [vm_compute; reflexivity|].
  split; [exact Hfen|]. split; [rewrite Hshown; reflexivity|].
  rewrite (Hpos eq_refl). reflexivity.
Defined.

Lemma resets_are_idempotent_witness :
  Part002.currentIndex
    (Part002.handleResetToLastPosition
       (Part002.handleResetToLastPosition Play.afterRightThenWrong002)) = 1 /\
  Part002.currentMoves Play.failedLoad002 = [] /\
  Part002.currentIndex (Part002.handleResetBoard Play.failedLoad002) = 0.
Proof.
  destruct resets_are_idempotent as (_ & _ & Hfree & _ & Hlast & _).
  rewrite (Hlast Play.afterRightThenWrong002 eq_refl).
  rewrite (Hfree Play.failedLoad002 eq_refl).
  repeat split.
Defined.

End MoreWitnesses.
